(** * CMNN photometric-redshift estimator, leave-one-out driver

    Shallow embedding of the estimation cells of
    [photoz/CMNN_Estimator/leave-one-out_method.ipynb]:
    the colours and colour errors formed from the magnitudes (section
    1.1), the threshold lookup table (section 2.1), the output arrays, the
    leave-one-out loop (section 2.2) and the check of the success rate
    (section 2.2.1).

    Numbers are numpy [float64] values: IEEE 754 binary64 with the
    Standard Library's [spec_float] ([prec = 53], [emax = 1024], round to
    nearest even), so that NaN, the infinities, overflow and underflow
    behave as they do in the notebook.  Integers of [dtype='int'] are
    64-bit.  Arrays are lists; the [(N,5)] arrays [data_c] and [data_ce]
    are lists of five-column rows.

    The elementwise operations, [nansum], [where] and the indexed
    assignments of numpy are written out.  Three library calls are
    external to the notebook and are section variables: [chi2.ppf]
    (scipy), [np.std] and [np.random.choice] (numpy).  An exception ends
    the loop and leaves the output arrays as they are at that point. *)

From Stdlib Require Import ZArith List Bool Lia Sorted.
From Stdlib Require Import Floats.SpecFloat.
Import ListNotations.

Set Implicit Arguments.

(** ** IEEE 754 binary64 arithmetic *)

Module F64.

Definition prec : Z := 53.
Definition emax : Z := 1024.

Definition float := spec_float.

Definition add : float -> float -> float := SFadd prec emax.
Definition sub : float -> float -> float := SFsub prec emax.
Definition mul : float -> float -> float := SFmul prec emax.
Definition div : float -> float -> float := SFdiv prec emax.

Definition sqrt : float -> float := SFsqrt prec emax.

Definition ltb : float -> float -> bool := SFltb.
Definition leb : float -> float -> bool := SFleb.
(** [x > y] and [x >= y] are the IEEE comparisons with swapped operands;
    every comparison with a NaN operand is false. *)
Definition gtb (x y : float) : bool := SFltb y x.
Definition geb (x y : float) : bool := SFleb y x.

Definition zero : float := S754_zero false.
Definition nan  : float := S754_nan.

(** Conversion of a Python integer (exact below [2^53]). *)
Definition of_Z (z : Z) : float := binary_normalize prec emax z 0 false.
Definition one : float := of_Z 1.

(** A decimal literal [n/d] with both [n] and [d] exactly representable:
    the correctly rounded quotient is the binary64 value the parser
    produces for the literal. *)
Definition decimal (n d : Z) : float := div (of_Z n) (of_Z d).

(** [x**2] on a float64 array is the elementwise product [x*x]. *)
Definition square (x : float) : float := mul x x.

Definition isnan (x : float) : bool :=
  match x with S754_nan => true | _ => false end.

Definition is_zero (x : float) : bool :=
  match x with S754_zero _ => true | _ => false end.

(** A nonzero finite value. *)
Definition is_number (x : float) : bool :=
  match x with S754_finite _ _ _ => true | _ => false end.

(** A zero or a nonzero finite value. *)
Definition is_finite (x : float) : bool := is_zero x || is_number x.

(** C cast of a double to a 64-bit integer, as the [dtype='int']
    reductions perform it: truncation towards zero.  The cast of a NaN, of
    an infinity or of a value outside the 64-bit range is the x86-64
    "integer indefinite" value [-2^63]. *)
Definition to_int (x : float) : Z :=
  match x with
  | S754_zero _ => 0%Z
  | S754_finite s m e =>
      let z := cond_Zopp s (Z.shiftl (Zpos m) e) in
      if ((- 2 ^ 63 <=? z) && (z <? 2 ^ 63))%Z then z else (- 2 ^ 63)%Z
  | S754_infinity _ | S754_nan => (- 2 ^ 63)%Z
  end.

(** Two's complement wrap-around of a 64-bit sum. *)
Definition wrap64 (z : Z) : Z := ((z + 2 ^ 63) mod 2 ^ 64 - 2 ^ 63)%Z.

(** [signed s x]: [x] is not NaN and carries the sign bit [s]. *)
Definition signed (s : bool) (x : float) : Prop :=
  match x with
  | S754_zero s' | S754_infinity s' | S754_finite s' _ _ => s' = s
  | S754_nan => False
  end.

(** Not NaN and sign bit clear: [+0], a positive number or [+inf]. *)
Definition nonneg (x : float) : Prop := signed false x.

(** NaN or non-negative. *)
Definition nonneg_or_nan (x : float) : Prop := isnan x = true \/ nonneg x.

Definition pinf : float := S754_infinity false.

End F64.

Import F64.

(** ** numpy array operations *)

Module Np.

(** Elementwise binary operation on two arrays of the same shape. *)
Definition map2 {A B C : Type} (f : A -> B -> C)
    (a : list A) (b : list B) : list C :=
  map (fun p => f (fst p) (snd p)) (combine a b).

Definition np_sub : list float -> list float -> list float := map2 sub.
Definition np_add : list float -> list float -> list float := map2 add.
Definition np_div : list float -> list float -> list float := map2 div.
Definition np_square : list float -> list float := map square.
Definition np_add_scalar (a : list float) (k : float) : list float :=
  map (fun x => add x k) a.

(** [np.nansum] first replaces every NaN by [0.0], then sums.  The five
    elements of a row are accumulated from left to right, starting from
    zero. *)
Definition nan_to_zero (x : float) : float := if isnan x then zero else x.

Definition fsum (a : list float) : float := fold_left add a zero.

Definition nansum (a : list float) : float := fsum (map nan_to_zero a).

(** [np.nansum(..., dtype='int')]: the NaN-free array is cast to 64-bit
    integers and summed as such. *)
Definition nansum_int (a : list float) : Z :=
  fold_left (fun s x => wrap64 (s + x)%Z)
            (map (fun x => to_int (nan_to_zero x)) a) 0%Z.

(** [np.where(mask)[0]]: the positions holding [True], ascending. *)
Fixpoint where_from (k : nat) (mask : list bool) : list nat :=
  match mask with
  | [] => []
  | b :: mask' =>
      if b then k :: where_from (S k) mask' else where_from (S k) mask'
  end.

Definition np_where (mask : list bool) : list nat := where_from 0 mask.

Definition np_and : list bool -> list bool -> list bool := map2 andb.

(** [a[k] = v].  Every index written below is in range (numpy raises
    [IndexError] otherwise; the driver checks the range first). *)
Fixpoint update {A : Type} (k : nat) (v : A) (a : list A) : list A :=
  match a, k with
  | [], _ => []
  | _ :: a', O => v :: a'
  | x :: a', S k' => x :: update k' v a'
  end.

(** [a[tx] = v] for an index array [tx]. *)
Definition assign {A : Type} (tx : list nat) (v : A) (a : list A) : list A :=
  fold_left (fun acc k => update k v acc) tx a.

(** [a[tx]]: the elements at the positions [tx]. *)
Definition take {A : Type} (a : list A) (tx : list nat) (d : A) : list A :=
  map (fun k => nth k a d) tx.

End Np.

Import Np.

(** ** The catalogue *)

(** The five columns u-g, g-r, r-i, i-z, z-y of one row of an [(N,5)]
    array. *)
Record colors : Type := Colors {
  u_g : float; g_r : float; r_i : float; i_z : float; z_y : float
}.

Definition columns (x : colors) : list float :=
  [u_g x; g_r x; r_i x; i_z x; z_y x].

(** One row of the query result, after the colours have been formed:
    the true redshift, the five colours and the five colour errors.
    A missing value is a NaN. *)
Record galaxy : Type := Galaxy {
  tz : float;
  c  : colors;
  ce : colors
}.

Definition catalog := list galaxy.

Definition data_tz (cat : catalog) : list float := map tz cat.
Definition data_c  (cat : catalog) : list (list float) :=
  map (fun g => columns (c g)) cat.
Definition data_ce (cat : catalog) : list (list float) :=
  map (fun g => columns (ce g)) cat.

(** [a[i,:]] *)
Definition row (a : list (list float)) (i : nat) : list float := nth i a [].

(** ** Distance and degrees of freedom (first two lines of the loop body) *)

(** [nansum((data_c[i,:] - data_c[r,:])**2 / data_ce[i,:]**2)] *)
Definition DM_row (ci cei cr : list float) : float :=
  nansum (np_div (np_square (np_sub ci cr)) (np_square cei)).

(** [nansum((ci**2 + cr**2 + 1.0) / (ci**2 + cr**2 + 1.0), dtype='int')] *)
Definition DOF_row (ci cr : list float) : Z :=
  let s := np_add_scalar (np_add (np_square ci) (np_square cr)) one in
  nansum_int (np_div s s).

(** [DM] and [DOF] for the test galaxy [i], one entry per training galaxy
    (the row [i] is broadcast against the whole array, then reduced along
    axis 1). *)
Definition DM (cat : catalog) (i : nat) : list float :=
  map (DM_row (row (data_c cat) i) (row (data_ce cat) i)) (data_c cat).

Definition DOF (cat : catalog) (i : nat) : list Z :=
  map (DOF_row (row (data_c cat) i)) (data_c cat).

(** The pairwise quantities: entry [r] of the arrays computed for the test
    galaxy [q]. *)
Definition D_pair (cat : catalog) (q r : nat) : float := nth r (DM cat q) zero.
Definition d_pair (cat : catalog) (q r : nat) : Z := nth r (DOF cat q) 0%Z.

(** ** Threshold table, selection, estimate, driver *)

(** The literals of the loop body. *)
Definition sentinel : float := decimal 999 10.       (* 99.9 *)
Definition eps : float := decimal 1 10000.           (* 0.00010 *)
Definition minus_one : float := sub zero one.        (* np.zeros(..) - 1.0 *)

Inductive exn : Type := IndexError | ZeroDivisionError.

Section Estimator.

(** [scipy.stats.chi2.ppf(q, df)] *)
Variable chi2_ppf : float -> Z -> float.
(** [np.std] *)
Variable np_std : list float -> float.
(** The global random generator and
    [np.random.choice(index, size=1, replace=False)[0]]. *)
Variable rng : Type.
Variable random_choice : rng -> list nat -> nat * rng.

(** The tunable parameters (section 2.1). *)
Variable cmnn_ppf : float.
Variable cmnn_minNclr : Z.

(** [cmnn_thresh_table]: six entries filled from [chi2.ppf], then entry 0
    overwritten with [0.0]. *)
Definition cmnn_thresh_table : list float :=
  update 0 zero
    (fold_left (fun t d => update d (chi2_ppf cmnn_ppf (Z.of_nat d)) t)
               (seq 0 6) (repeat zero 6)).

(** [data_th]: zeros, then for each [d] in [range(6)] the entries with
    [DOF == d] receive [cmnn_thresh_table[d]]. *)
Definition data_th (dof : list Z) : list float :=
  fold_left
    (fun th d =>
       let tx := np_where (map (fun x => Z.eqb x (Z.of_nat d)) dof) in
       assign tx (nth d cmnn_thresh_table zero) th)
    (seq 0 6) (repeat zero (length dof)).

(** The threshold that this loop gives to an entry whose [DOF] is [d]. *)
Definition threshold (d : Z) : float :=
  if (0 <=? d)%Z && (d <=? 5)%Z
  then nth (Z.to_nat d) cmnn_thresh_table zero
  else zero.

(** The four-way mask and [np.where]. *)
Definition select (dof : list Z) (th dm : list float) : list nat :=
  np_where
    (np_and
      (np_and
        (np_and (map (fun d => Z.geb d cmnn_minNclr) dof)
                (map (fun t => gtb t eps) th))
        (map (fun x => gtb x eps) dm))
      (map2 leb dm th)).

(** [DM] after [DM[i] = 99.9]. *)
Definition DM_loo (cat : catalog) (i : nat) : list float :=
  update i sentinel (DM cat i).

(** The CMNN subset of the test galaxy [i] (the variable [index]). *)
Definition index (cat : catalog) (i : nat) : list nat :=
  select (DOF cat i) (data_th (DOF cat i)) (DM_loo cat i).

(** The global arrays written by the loop, and the generator state. *)
Record state : Type := State {
  data_pz  : list float;
  data_pze : list float;
  gen : rng
}.

Definition initial (cat : catalog) (g : rng) : state :=
  {| data_pz  := repeat minus_one (length cat);
     data_pze := repeat minus_one (length cat);
     gen := g |}.

(** The body of the loop for the test galaxy [i], after the progress
    report.  [rival] is drawn from [index], whose members are positions of
    the catalogue, so that [data_tz[rival]] is in range. *)
Definition estimate (cat : catalog) (i : nat) (st : state) : state :=
  let idx := index cat i in
  if (0 <? length idx)%nat then
    let (rival, g') := random_choice (gen st) idx in
    {| data_pz  := update i (nth rival (data_tz cat) nan) (data_pz st);
       data_pze := update i (np_std (take (data_tz cat) idx nan))
                          (data_pze st);
       gen := g' |}
  else
    {| data_pz  := update i nan (data_pz st);
       data_pze := update i nan (data_pze st);
       gen := gen st |}.

(** The loop stops with the arrays as they are when an exception is
    raised. *)
Inductive outcome : Type :=
| Done (st : state)
| Raised (e : exn) (st : state).

(** [(i == 100) | (i == 1000) | (i == Ncalc-1000)] *)
Definition progress_due (Ncalc i : nat) : bool :=
  (i =? 100)%nat || (i =? 1000)%nat
  || (Z.of_nat i =? Z.of_nat Ncalc - 1000)%Z.

(** [((t2-t1)/float(i))*float(Ncalc)]: a [timedelta] divided by [0.0]
    raises. *)
Definition progress_report (Ncalc i : nat) : option exn :=
  if progress_due Ncalc i then
    if (i =? 0)%nat then Some ZeroDivisionError else None
  else None.

(** One pass of the loop: the progress report, the row access
    [data_c[i,:]], the estimate. *)
Definition iteration (cat : catalog) (Ncalc i : nat) (st : state)
    : outcome :=
  match progress_report Ncalc i with
  | Some e => Raised e st
  | None =>
      if (length cat <=? i)%nat then Raised IndexError st
      else Done (estimate cat i st)
  end.

Fixpoint loop (cat : catalog) (Ncalc : nat) (todo : list nat) (st : state)
    : outcome :=
  match todo with
  | [] => Done st
  | i :: todo' =>
      match iteration cat Ncalc i st with
      | Done st' => loop cat Ncalc todo' st'
      | Raised e st' => Raised e st'
      end
  end.

(** [for i in range(Ncalc)] on freshly allocated output arrays. *)
Definition run (cat : catalog) (Ncalc : nat) (g : rng) : outcome :=
  loop cat Ncalc (seq 0 Ncalc) (initial cat g).

(** What the loop body leaves in the two output slots of galaxy [i]. *)
Definition estimated (cat : catalog) (i : nat) (st : state) : Prop :=
  (index cat i = [] /\
   nth i (data_pz st) zero = nan /\ nth i (data_pze st) zero = nan)
  \/
  (index cat i <> [] /\
   (exists g, nth i (data_pz st) zero =
              nth (fst (random_choice g (index cat i))) (data_tz cat) nan) /\
   nth i (data_pze st) zero = np_std (take (data_tz cat) (index cat i) nan)).

(** The slots of a galaxy that the loop has not reached. *)
Definition pending (i : nat) (st : state) : Prop :=
  nth i (data_pz st) zero = minus_one /\
  nth i (data_pze st) zero = minus_one.

(** After the galaxies below [k] have been processed. *)
Definition processed (cat : catalog) (k : nat) (st : state) : Prop :=
  length (data_pz st) = length cat /\
  length (data_pze st) = length cat /\
  forall i, i < length cat ->
    (i < k -> estimated cat i st) /\ (k <= i -> pending i st).

End Estimator.

(** ** Per-dimension reading of the two reductions *)

(** The dimensions of a pair: the colours of the test galaxy, of the
    training galaxy, and the colour errors of the test galaxy, position by
    position. *)
Definition dims (cq cr eq : list float) : list (float * float * float) :=
  combine (combine cq cr) eq.

Definition D_term (t : float * float * float) : float :=
  let '(a, b, e) := t in div (square (sub a b)) (square e).

(** The quantity whose self-ratio is summed for [DOF]. *)
Definition sumsq (p : float * float) : float :=
  add (add (square (fst p)) (square (snd p))) one.

Definition present (x : float) : bool := negb (isnan x).

(** A dimension is valid for a pair when both colours are present. *)
Definition valid (p : float * float) : bool :=
  present (fst p) && present (snd p).



(** The dimensions that the self-ratio actually counts: both colours
    present and [c_q^2 + c_r^2 + 1.0] a finite number (it is infinite when a
    colour is infinite or its square overflows). *)
Definition counted (p : float * float) : bool :=
  valid p && is_number (sumsq p).

(** The distance that the mask reads: the entry of the test galaxy itself
    has been overwritten with [99.9]. *)
Definition D_loo (cat : catalog) (q r : nat) : float :=
  if (r =? q)%nat then sentinel else D_pair cat q r.

(** ** Sample instances of the external functions, sample catalogues *)

(** The values of [chi2.ppf(0.68, df)], to four decimals; [chi2.ppf] is
    NaN at [df = 0]. *)
Definition ppf68 (q : float) (df : Z) : float :=
  match df with
  | 1 => decimal 9889 10000
  | 2 => decimal 22789 10000
  | 3 => decimal 35059 10000
  | 4 => decimal 46954 10000
  | 5 => decimal 58608 10000
  | _ => nan
  end%Z.

(** A generator that always draws the first candidate. *)
Definition first_choice (g : unit) (idx : list nat) : nat * unit :=
  (hd 0 idx, g).

(** [np.std] with its two sums accumulated from left to right, which is
    what numpy does for fewer than eight elements:
    [sqrt(mean((x - mean(x))**2))]. *)
Definition mean (x : list float) : float :=
  div (fsum x) (of_Z (Z.of_nat (length x))).

Definition std_sequential (x : list float) : float :=
  let m := mean x in
  sqrt (mean (map (fun v => square (sub v m)) x)).

Definition p68 : float := decimal 68 100.

(** A row with the same value in every column, and a row that differs in
    its first column. *)
Definition uniform (v : float) : colors := Colors v v v v v.
Definition first_differs (v0 v : float) : colors := Colors v0 v v v v.

(** Four galaxies that differ in their first colour only. *)
Definition sample_galaxy (z10 c0 : Z) : galaxy :=
  {| tz := decimal z10 10;
     c  := first_differs (decimal c0 10000) (decimal 5 10);
     ce := uniform (decimal 1 10) |}.

Definition cat4 : catalog :=
  [ sample_galaxy 5 5000; sample_galaxy 7 5005;
    sample_galaxy 9 5100; sample_galaxy 20 9000 ].


(** A test galaxy whose first colour error is exactly zero. *)
Definition cat_zero_error : catalog :=
  [ {| tz := decimal 5 10;
       c  := uniform (decimal 5 10);
       ce := first_differs zero (decimal 1 10) |};
    sample_galaxy 7 6000 ].

(** Two galaxies with different colour errors. *)
Definition cat_two_errors : catalog :=
  [ sample_galaxy 5 5000;
    {| tz := decimal 7 10;
       c  := first_differs (decimal 6 10) (decimal 5 10);
       ce := uniform (decimal 2 10) |} ].

(** Two galaxies with a missing colour each, in different dimensions. *)
Definition cat_missing : catalog :=
  [ {| tz := decimal 5 10;
       c  := Colors (decimal 5 10) nan (decimal 5 10) (decimal 5 10)
                    (decimal 5 10);
       ce := uniform (decimal 1 10) |};
    {| tz := decimal 7 10;
       c  := Colors (decimal 6 10) (decimal 5 10) nan (decimal 5 10)
                    (decimal 5 10);
       ce := uniform (decimal 1 10) |} ].

(** ** From magnitudes to colours (section 1.1) *)

(** The six columns u, g, r, i, z, y of one row of [data_m] or
    [data_me]. *)
Record mags : Type := Mags {
  m_u : float; m_g : float; m_r : float;
  m_i : float; m_z : float; m_y : float
}.

Definition bands (m : mags) : list float :=
  [m_u m; m_g m; m_r m; m_i m; m_z m; m_y m].

(** One row of [results]: the true redshift, the cModel magnitudes and
    their errors. *)
Record object_row : Type := Object {
  redshift : float;
  mag : mags;
  magerr : mags
}.

(** [data_c[:,k] = data_m[:,k] - data_m[:,k+1]], for one row. *)
Definition color_of (m : mags) : colors :=
  {| u_g := sub (m_u m) (m_g m);
     g_r := sub (m_g m) (m_r m);
     r_i := sub (m_r m) (m_i m);
     i_z := sub (m_i m) (m_z m);
     z_y := sub (m_z m) (m_y m) |}.

(** [np.sqrt(a**2 + b**2)] *)
Definition quadrature (a b : float) : float :=
  sqrt (add (square a) (square b)).

(** [data_ce[:,k] = np.sqrt(data_me[:,k]**2 + data_me[:,k+1]**2)], for one
    row. *)
Definition color_error_of (me : mags) : colors :=
  {| u_g := quadrature (m_u me) (m_g me);
     g_r := quadrature (m_g me) (m_r me);
     r_i := quadrature (m_r me) (m_i me);
     i_z := quadrature (m_i me) (m_z me);
     z_y := quadrature (m_z me) (m_y me) |}.

(** The arrays [data_tz], [data_c] and [data_ce] built from [results]. *)
Definition galaxy_of (o : object_row) : galaxy :=
  {| tz := redshift o;
     c  := color_of (mag o);
     ce := color_error_of (magerr o) |}.

Definition catalog_of (results : list object_row) : catalog :=
  map galaxy_of results.

(** ** Quick check of the success rate (section 2.2.1) *)

(** [len(np.where(np.isnan(data_pz))[0])] *)
Definition count_no_estimate (pz : list float) : nat :=
  length (np_where (map isnan pz)).

(** [len(np.where(data_pz > 0.0)[0])] *)
Definition count_estimate (pz : list float) : nat :=
  length (np_where (map (fun x => gtb x zero) pz)).

(** [len(index) > 0] *)
Definition has_neighbors (idx : list nat) : bool := (0 <? length idx)%nat.

(** ** Further samples *)

Definition flat_mags (v : float) : mags := Mags v v v v v v.

(** Magnitudes 24.0, 23.5, 23.0, 22.5, 22.0, 21.5 shifted by [d/100] in
    the u band, with errors of 0.05. *)
Definition sample_object (z10 d : Z) : object_row :=
  {| redshift := decimal z10 10;
     mag := Mags (decimal (2400 + d) 100) (decimal 235 10) (of_Z 23)
                 (decimal 225 10) (of_Z 22) (decimal 215 10);
     magerr := flat_mags (decimal 5 100) |}.

(** The object 1 repeats the colours of the object 0, the object 2 has no
    r magnitude, the object 3 has no g, i and y magnitudes. *)
Definition results4 : list object_row :=
  [ sample_object 5 0;
    sample_object 7 0;
    {| redshift := decimal 9 10;
       mag := Mags (of_Z 24) (decimal 235 10) nan
                   (decimal 225 10) (of_Z 22) (decimal 215 10);
       magerr := flat_mags (decimal 5 100) |};
    {| redshift := decimal 11 10;
       mag := Mags (of_Z 24) nan (of_Z 23) nan (of_Z 22) nan;
       magerr := flat_mags (decimal 5 100) |} ].


(** * Lemmas *)

(** ** Facts on binary64 arithmetic used below *)

Section Float_facts.

Lemma iter_pos_invariant (A : Type) (P : A -> Prop) (f : A -> A) :
  (forall a, P a -> P (f a)) ->
  forall n a, P a -> P (iter_pos f n a).
Proof.
  intros Hf. induction n as [n IH | n IH | ]; intros a Ha; simpl.
  - apply IH, IH, Hf, Ha.
  - apply IH, IH, Ha.
  - apply Hf, Ha.
Qed.

Lemma shr_1_nonneg mrs : (0 <= shr_m mrs)%Z -> (0 <= shr_m (shr_1 mrs))%Z.
Proof.
  destruct mrs as [m r s]. simpl.
  destruct m as [ | [p | p | ] | [p | p | ] ]; simpl; lia.
Qed.

Lemma shr_nonneg mrs e n :
  (0 <= shr_m mrs)%Z -> (0 <= shr_m (fst (shr mrs e n)))%Z.
Proof.
  intros H. destruct n as [ | p | p ]; simpl; trivial.
  apply iter_pos_invariant with (P := fun x => (0 <= shr_m x)%Z); trivial.
  apply shr_1_nonneg.
Qed.

Lemma shr_record_of_loc_m m l : shr_m (shr_record_of_loc m l) = m.
Proof. destruct l as [ | [ | | ] ]; reflexivity. Qed.

Lemma shr_fexp_nonneg m e l :
  (0 <= m)%Z -> (0 <= shr_m (fst (shr_fexp prec emax m e l)))%Z.
Proof.
  intros H. unfold shr_fexp. apply shr_nonneg.
  rewrite shr_record_of_loc_m. exact H.
Qed.

Lemma round_nearest_even_nonneg m l :
  (0 <= m)%Z -> (0 <= round_nearest_even m l)%Z.
Proof.
  intros H. destruct l as [ | [ | | ] ]; simpl; trivial.
  - destruct (Z.even m); lia.
  - lia.
Qed.

(** Rounding a non-negative integer mantissa never produces a NaN and
    keeps the requested sign. *)
Lemma binary_round_aux_signed s m e l :
  (0 <= m)%Z -> signed s (binary_round_aux prec emax s m e l).
Proof.
  intros H. unfold binary_round_aux.
  pose proof (shr_fexp_nonneg e l H) as H1.
  destruct (shr_fexp prec emax m e l) as [mrs' e'] eqn:E1. simpl in H1.
  pose proof (round_nearest_even_nonneg (loc_of_shr_record mrs') H1) as H2.
  pose proof (shr_fexp_nonneg e' loc_Exact H2) as H3.
  destruct (shr_fexp prec emax _ e' loc_Exact) as [mrs'' e''] eqn:E2.
  simpl in H3.
  destruct (shr_m mrs'') as [ | p | p ]; simpl.
  - reflexivity.
  - match goal with |- context [if ?b then _ else _] => destruct b end;
      reflexivity.
  - lia.
Qed.

Lemma binary_round_signed s m e : signed s (binary_round prec emax s m e).
Proof.
  unfold binary_round.
  destruct (shl_align m e _) as [mz ez].
  apply binary_round_aux_signed. lia.
Qed.

Lemma signed_not_nan s x : signed s x -> isnan x = false.
Proof. destruct x; simpl; intros H; trivial; contradiction. Qed.

(** *** NaN propagation *)

Lemma sub_nan_l y : sub nan y = nan.
Proof. reflexivity. Qed.

Lemma sub_nan_r x : sub x nan = nan.
Proof. destruct x; reflexivity. Qed.

Lemma add_nan_l y : add nan y = nan.
Proof. reflexivity. Qed.

Lemma add_nan_r x : add x nan = nan.
Proof. destruct x; reflexivity. Qed.

Lemma div_nan_l y : div nan y = nan.
Proof. reflexivity. Qed.

Lemma div_nan_r x : div x nan = nan.
Proof. destruct x; reflexivity. Qed.

Lemma square_nan : square nan = nan.
Proof. reflexivity. Qed.

Lemma isnan_true x : isnan x = true -> x = nan.
Proof. destruct x; simpl; intros H; trivial; discriminate. Qed.

(** *** Signs *)

(** A square is NaN exactly when its argument is; otherwise its sign bit
    is clear. *)
Lemma square_nonneg x : isnan x = false -> nonneg (square x).
Proof.
  destruct x as [s | s | | s m e]; simpl; intros H; try discriminate.
  - unfold nonneg. simpl. apply xorb_nilpotent.
  - unfold nonneg. simpl. apply xorb_nilpotent.
  - unfold nonneg, square, mul, SFmul. rewrite xorb_nilpotent.
    apply binary_round_aux_signed. lia.
Qed.

Lemma square_isnan x : isnan (square x) = isnan x.
Proof.
  destruct (isnan x) eqn:E.
  - apply isnan_true in E. subst x. reflexivity.
  - eapply signed_not_nan, square_nonneg, E.
Qed.

Lemma add_nonneg x y : nonneg x -> nonneg y -> nonneg (add x y).
Proof.
  unfold nonneg.
  destruct x as [sx | sx | | sx mx ex]; simpl; intros Hx; try contradiction;
    destruct y as [sy | sy | | sy my ey]; simpl; intros Hy;
    try contradiction; subst; simpl; trivial.
  apply binary_round_signed.
Qed.

Lemma div_eucl_nonneg a b q r :
  (0 <= a)%Z -> (0 < b)%Z -> Z.div_eucl a b = (q, r) -> (0 <= q)%Z.
Proof.
  intros Ha Hb E.
  assert (Hq : q = (a / b)%Z) by (unfold Z.div; rewrite E; reflexivity).
  subst q. apply Z.div_pos; assumption.
Qed.

Lemma div_core_nonneg m1 e1 m2 e2 :
  (0 <= fst (fst (SFdiv_core_binary prec emax (Zpos m1) e1 (Zpos m2) e2)))%Z.
Proof.
  unfold SFdiv_core_binary.
  set (s := (e1 - e2 - _)%Z).
  set (m' := match s with Zpos _ => Z.shiftl (Zpos m1) s | Z0 => Zpos m1
                        | Zneg _ => 0%Z end).
  assert (Hm : (0 <= m')%Z).
  { subst m'. destruct s; try lia. apply Z.shiftl_nonneg. lia. }
  destruct (Z.div_eucl m' (Zpos m2)) as [q r] eqn:E. simpl.
  eapply div_eucl_nonneg; [exact Hm | | exact E]. lia.
Qed.

(** A quotient of two non-negative operands is NaN ([0/0], [inf/inf]) or
    non-negative. *)
Lemma div_nonneg x y :
  nonneg x -> nonneg y -> isnan (div x y) = false -> nonneg (div x y).
Proof.
  unfold nonneg.
  destruct x as [sx | sx | | sx mx ex]; simpl; intros Hx; try contradiction;
    destruct y as [sy | sy | | sy my ey]; simpl; intros Hy;
    try contradiction; subst; simpl; trivial; try discriminate.
  intros _. unfold div, SFdiv.
  pose proof (div_core_nonneg mx ex my ey) as H.
  destruct (SFdiv_core_binary prec emax (Zpos mx) ex (Zpos my) ey)
    as [[mz ez] lz]. simpl in H.
  apply binary_round_aux_signed, H.
Qed.

Lemma div_number_not_nan x y :
  nonneg x -> is_number y = true -> isnan (div x y) = false.
Proof.
  unfold nonneg.
  destruct y as [sy | sy | | sy my ey]; try discriminate. intros Hx _.
  destruct x as [sx | sx | | sx mx ex]; simpl in Hx; try contradiction;
    try reflexivity.
  unfold div, SFdiv.
  pose proof (div_core_nonneg mx ex my ey) as H.
  destruct (SFdiv_core_binary prec emax (Zpos mx) ex (Zpos my) ey)
    as [[mz ez] lz]. simpl in H.
  eapply signed_not_nan, binary_round_aux_signed, H.
Qed.

Lemma binary_normalize_not_nan z e :
  isnan (binary_normalize prec emax z e false) = false.
Proof.
  destruct z as [ | p | p]; simpl; trivial;
    eapply signed_not_nan, binary_round_signed.
Qed.

(** The difference of two finite values is never NaN. *)
Lemma sub_finite_not_nan x y :
  is_finite x = true -> is_finite y = true -> isnan (sub x y) = false.
Proof.
  destruct x as [sx | sx | | sx mx ex]; try discriminate;
    destruct y as [sy | sy | | sy my ey]; try discriminate; intros _ _;
    try reflexivity.
  - destruct sx, sy; reflexivity.
  - unfold sub, SFsub. apply binary_normalize_not_nan.
Qed.

(** *** Algebraic identities that hold exactly in binary64 *)


Lemma add_comm x y : add x y = add y x.
Proof.
  destruct x as [sx | sx | | sx mx ex], y as [sy | sy | | sy my ey];
    try reflexivity;
    try (destruct sx, sy; reflexivity).
  unfold add, SFadd. rewrite (Z.min_comm ex ey). f_equal. apply Z.add_comm.
Qed.

Lemma div_eucl_shiftl m (k : positive) :
  Z.div_eucl (Z.shiftl (Zpos m) (Zpos k)) (Zpos m) = ((2 ^ Zpos k)%Z, 0%Z).
Proof.
  rewrite Z.shiftl_mul_pow2 by lia.
  pose proof (Z.div_mul (2 ^ Zpos k) (Zpos m)) as Hq.
  pose proof (Z.mod_mul (2 ^ Zpos k) (Zpos m)) as Hr.
  rewrite (Z.mul_comm (Zpos m)).
  unfold Z.div in Hq. unfold Z.modulo in Hr.
  destruct (Z.div_eucl (2 ^ Zpos k * Zpos m) (Zpos m)) as [q r].
  rewrite Hq, Hr by lia. reflexivity.
Qed.

(** [x / x] is exactly [1.0] for every nonzero finite [x], and NaN for
    [0/0], [inf/inf] and a NaN operand. *)
Lemma div_self x : div x x = if is_number x then one else nan.
Proof.
  destruct x as [s | s | | s m e]; try reflexivity.
  unfold div, SFdiv, SFdiv_core_binary. simpl is_number.
  rewrite xorb_nilpotent.
  replace (Z.min _ _) with (-53)%Z.
  2:{ rewrite !Z.sub_diag. reflexivity. }
  replace (e - e - -53)%Z with 53%Z by lia.
  rewrite (div_eucl_shiftl m 53).
  unfold new_location, new_location_even, new_location_odd.
  destruct (Z.even (Zpos m)); reflexivity.
Qed.

(** *** Comparisons *)

Lemma SFcompare_antisym x y :
  SFcompare y x = option_map CompOpp (SFcompare x y).
Proof.
  destruct x as [sx | sx | | sx mx ex], y as [sy | sy | | sy my ey];
    simpl; trivial;
    try (destruct sx; reflexivity); try (destruct sy; reflexivity);
    try (destruct sx, sy; reflexivity).
  destruct sx, sy; simpl; trivial; f_equal;
    rewrite (Z.compare_antisym ey ex);
    destruct (ey ?= ex)%Z; simpl; trivial;
    rewrite !Pos.compare_cont_spec by discriminate; simpl;
    rewrite (Pos.compare_antisym my mx);
    destruct (my ?= mx)%positive; reflexivity.
Qed.

Lemma ltb_leb_false x y : ltb x y = true -> leb y x = false.
Proof.
  unfold ltb, leb, SFltb, SFleb. rewrite (SFcompare_antisym x y).
  destruct (SFcompare x y) as [[ | | ] | ]; simpl; congruence.
Qed.

End Float_facts.

(** ** The sequential standard deviation is NaN or non-negative *)

Section Std_facts.

Lemma square_nonneg_or_nan x : nonneg_or_nan (square x).
Proof.
  unfold nonneg_or_nan. destruct (isnan x) eqn:E.
  - left. now rewrite square_isnan.
  - right. apply square_nonneg, E.
Qed.

Lemma add_nonneg_or_nan x y :
  nonneg_or_nan x -> nonneg_or_nan y -> nonneg_or_nan (add x y).
Proof.
  intros [Hx | Hx].
  { apply isnan_true in Hx. subst x. intros _. left. reflexivity. }
  intros [Hy | Hy].
  { apply isnan_true in Hy. subst y. left. now rewrite add_nan_r. }
  right. apply add_nonneg; assumption.
Qed.

Lemma fsum_nonneg_or_nan l :
  Forall nonneg_or_nan l -> nonneg_or_nan (fsum l).
Proof.
  unfold fsum. assert (H0 : nonneg_or_nan zero) by (right; reflexivity).
  revert H0. generalize zero.
  induction l as [ | x l IH]; intros acc Hacc Hl; simpl; trivial.
  inversion Hl; subst. apply IH; trivial.
  apply add_nonneg_or_nan; assumption.
Qed.

Lemma of_Z_nonneg z : (0 <= z)%Z -> nonneg (of_Z z).
Proof.
  unfold of_Z, binary_normalize. destruct z as [ | p | p]; intros H.
  - reflexivity.
  - apply binary_round_signed.
  - lia.
Qed.

Lemma div_nonneg_or_nan x y :
  nonneg_or_nan x -> nonneg y -> nonneg_or_nan (div x y).
Proof.
  intros [Hx | Hx] Hy.
  { apply isnan_true in Hx. subst x. left. reflexivity. }
  unfold nonneg_or_nan. destruct (isnan (div x y)) eqn:E; [now left | ].
  right. apply div_nonneg; assumption.
Qed.

Lemma sqrt_core_nonneg m e :
  (0 <= fst (fst (SFsqrt_core_binary prec emax (Zpos m) e)))%Z.
Proof.
  unfold SFsqrt_core_binary.
  set (s := (e - _)%Z).
  set (m' := match s with Zpos _ => Z.shiftl (Zpos m) s | Z0 => Zpos m
                        | Zneg _ => 0%Z end).
  assert (Hm : (0 <= m')%Z).
  { subst m'. destruct s; try lia. apply Z.shiftl_nonneg. lia. }
  pose proof (Z.sqrtrem_spec m' Hm) as H.
  destruct (Z.sqrtrem m') as [q r]. simpl. lia.
Qed.

Lemma sqrt_nonneg_or_nan x : nonneg_or_nan x -> nonneg_or_nan (sqrt x).
Proof.
  intros [Hx | Hx].
  { apply isnan_true in Hx. subst x. left. reflexivity. }
  right. unfold nonneg in *.
  destruct x as [s | s | | s m e]; simpl in Hx; try contradiction; subst.
  - reflexivity.
  - reflexivity.
  - unfold sqrt, SFsqrt.
    pose proof (sqrt_core_nonneg m e) as H.
    destruct (SFsqrt_core_binary prec emax (Zpos m) e) as [[mz ez] lz].
    simpl in H. apply binary_round_aux_signed, H.
Qed.

Lemma nonneg_geb_zero x : nonneg x -> geb x zero = true.
Proof.
  unfold nonneg. destruct x as [s | s | | s m e]; simpl; intros H;
    try contradiction; subst; reflexivity.
Qed.

Lemma mean_nonneg_or_nan l :
  Forall nonneg_or_nan l -> nonneg_or_nan (mean l).
Proof.
  intros H. unfold mean. apply div_nonneg_or_nan.
  - apply fsum_nonneg_or_nan, H.
  - apply of_Z_nonneg. lia.
Qed.

Lemma std_sequential_range l :
  isnan (std_sequential l) = true \/ geb (std_sequential l) zero = true.
Proof.
  assert (H : nonneg_or_nan (std_sequential l)).
  { unfold std_sequential. apply sqrt_nonneg_or_nan, mean_nonneg_or_nan.
    apply Forall_forall. intros x Hx.
    apply in_map_iff in Hx. destruct Hx as [v [<- _]].
    apply square_nonneg_or_nan. }
  destruct H as [H | H]; [now left | right; apply nonneg_geb_zero, H].
Qed.

Lemma first_choice_In (g : unit) idx :
  idx <> [] -> In (fst (first_choice g idx)) idx.
Proof. destruct idx; simpl; [congruence | auto]. Qed.

End Std_facts.

(** ** Facts on the array operations *)

Section Array_facts.

Lemma nth_map_lt (A B : Type) (f : A -> B) (l : list A) (r : nat) d d' :
  r < length l -> nth r (map f l) d' = f (nth r l d).
Proof.
  revert r. induction l as [ | x l IH]; intros [ | r] H; simpl in *;
    try lia; trivial.
  apply IH. lia.
Qed.

Lemma length_map2 (A B C : Type) (f : A -> B -> C) a b :
  length (map2 f a b) = Nat.min (length a) (length b).
Proof. unfold map2. rewrite length_map. apply length_combine. Qed.

Lemma nth_map2 (A B C : Type) (f : A -> B -> C) a b r da db d :
  r < length a -> r < length b ->
  nth r (map2 f a b) d = f (nth r a da) (nth r b db).
Proof.
  unfold map2. revert b r.
  induction a as [ | x a IH]; intros [ | y b] [ | r] Ha Hb; simpl in *;
    try lia; trivial.
  apply IH; lia.
Qed.

Lemma In_where_from mask : forall k r,
  In r (where_from k mask) <-> k <= r /\ nth (r - k) mask false = true.
Proof.
  induction mask as [ | b mask IH]; intros k r; simpl.
  - split; [contradiction | ]. intros [_ H]. destruct (r - k); discriminate.
  - assert (Hrec : In r (where_from (S k) mask) <->
                   k < r /\ nth (r - S k) mask false = true)
      by (rewrite IH; reflexivity).
    destruct (Nat.eq_dec r k) as [-> | Hne].
    + rewrite Nat.sub_diag.
      destruct b; simpl; rewrite ?Hrec; split; intros H;
        try (split; [lia | reflexivity]); try (left; reflexivity);
        try (destruct H as [H _]; lia); destruct H; congruence.
    + assert (Hsub : k < r -> r - k = S (r - S k)) by lia.
      destruct b; simpl; rewrite Hrec; split.
      * intros [H | [H1 H2]]; [congruence | ].
        split; [lia | ]. rewrite (Hsub H1). exact H2.
      * intros [H1 H2]. right. assert (Hlt : k < r) by lia.
        rewrite (Hsub Hlt) in H2. split; assumption.
      * intros [H1 H2]. split; [lia | ]. rewrite (Hsub H1). exact H2.
      * intros [H1 H2]. assert (Hlt : k < r) by lia.
        rewrite (Hsub Hlt) in H2. split; assumption.
Qed.

Lemma In_np_where mask r :
  In r (np_where mask) <-> nth r mask false = true.
Proof.
  unfold np_where. rewrite In_where_from, Nat.sub_0_r.
  split; [intros [_ H]; exact H | intros H; split; [lia | exact H]].
Qed.

Lemma np_where_lt mask r : In r (np_where mask) -> r < length mask.
Proof.
  rewrite In_np_where. intros H.
  destruct (Nat.lt_ge_cases r (length mask)) as [Hlt | Hge]; trivial.
  rewrite nth_overflow in H by exact Hge. discriminate.
Qed.

Lemma length_update (A : Type) k (v : A) a :
  length (update k v a) = length a.
Proof.
  revert k. induction a as [ | x a IH]; intros [ | k]; simpl; trivial.
  now rewrite IH.
Qed.

Lemma nth_update (A : Type) k (v : A) a r d :
  nth r (update k v a) d =
  if (r =? k) && (k <? length a) then v else nth r a d.
Proof.
  revert k r. induction a as [ | x a IH]; intros k r; simpl.
  - rewrite andb_false_r. destruct k; reflexivity.
  - destruct k as [ | k], r as [ | r]; simpl; trivial.
Qed.

Lemma nth_update_same (A : Type) k (v : A) a d :
  k < length a -> nth k (update k v a) d = v.
Proof.
  intros H. rewrite nth_update, Nat.eqb_refl.
  apply Nat.ltb_lt in H. now rewrite H.
Qed.

Lemma nth_update_other (A : Type) k (v : A) a r d :
  r <> k -> nth r (update k v a) d = nth r a d.
Proof.
  intros H. rewrite nth_update.
  apply Nat.eqb_neq in H. now rewrite H.
Qed.

Lemma length_assign (A : Type) tx (v : A) a :
  length (assign tx v a) = length a.
Proof.
  unfold assign. revert a.
  induction tx as [ | k tx IH]; intros a; simpl; trivial.
  rewrite IH. apply length_update.
Qed.

Lemma nth_assign (A : Type) tx (v : A) a r d :
  r < length a ->
  nth r (assign tx v a) d = if existsb (Nat.eqb r) tx then v else nth r a d.
Proof.
  unfold assign. revert a.
  induction tx as [ | k tx IH]; intros a Hr; simpl; trivial.
  rewrite IH by (rewrite length_update; exact Hr).
  destruct (existsb (Nat.eqb r) tx); [now rewrite orb_true_r | ].
  rewrite orb_false_r, nth_update.
  destruct (r =? k) eqn:E; simpl; trivial.
  apply Nat.eqb_eq in E. subst k.
  apply Nat.ltb_lt in Hr. now rewrite Hr.
Qed.

(** One pass of the [data_th] loop. *)
Lemma nth_assign_where (dof : list Z) (d : Z) (v : float) th r :
  length th = length dof -> r < length dof ->
  nth r (assign (np_where (map (fun x => Z.eqb x d) dof)) v th) zero =
  if Z.eqb (nth r dof 0%Z) d then v else nth r th zero.
Proof.
  intros Hlen Hr. rewrite nth_assign by lia.
  set (tx := np_where _).
  assert (Hin : In r tx <-> Z.eqb (nth r dof 0%Z) d = true).
  { subst tx. rewrite In_np_where.
    rewrite nth_map_lt with (d := 0%Z) by exact Hr.
    reflexivity. }
  destruct (existsb (Nat.eqb r) tx) eqn:E.
  - apply existsb_exists in E. destruct E as [k [Hk Ek]].
    apply Nat.eqb_eq in Ek. subst k. apply Hin in Hk. now rewrite Hk.
  - destruct (Z.eqb (nth r dof 0%Z) d) eqn:E'; trivial.
    assert (Hk : In r tx) by (apply Hin; reflexivity).
    assert (Ht : existsb (Nat.eqb r) tx = true).
    { apply existsb_exists. exists r. split; trivial. apply Nat.eqb_refl. }
    congruence.
Qed.

End Array_facts.

(** ** Facts on the loop body *)

Section Estimator_facts.

Variable chi2_ppf : float -> Z -> float.
Variable cmnn_ppf : float.
Variable cmnn_minNclr : Z.

Local Abbreviation table := (cmnn_thresh_table chi2_ppf cmnn_ppf).
Local Abbreviation threshold := (threshold chi2_ppf cmnn_ppf).
Local Abbreviation data_th := (data_th chi2_ppf cmnn_ppf).
Local Abbreviation index := (index chi2_ppf cmnn_ppf cmnn_minNclr).


Lemma length_DM cat i : length (DM cat i) = length cat.
Proof. unfold DM, data_c. now rewrite !length_map. Qed.

Lemma length_DOF cat i : length (DOF cat i) = length cat.
Proof. unfold DOF, data_c. now rewrite !length_map. Qed.

Lemma length_data_th dof : length (data_th dof) = length dof.
Proof.
  unfold data_th. simpl. rewrite !length_assign.
  apply repeat_length.
Qed.

Lemma nth_data_th dof r :
  r < length dof -> nth r (data_th dof) zero = threshold (nth r dof 0%Z).
Proof.
  intros Hr. unfold data_th.
  cbn [fold_left seq].
  repeat (rewrite nth_assign_where;
          [ | rewrite ?length_assign; apply repeat_length | exact Hr ]).
  rewrite nth_repeat.
  unfold threshold.
  set (x := nth r dof 0%Z).
  change (Z.of_nat 5) with 5%Z. change (Z.of_nat 4) with 4%Z.
  change (Z.of_nat 3) with 3%Z. change (Z.of_nat 2) with 2%Z.
  change (Z.of_nat 1) with 1%Z. change (Z.of_nat 0) with 0%Z.
  destruct (Z.eqb_spec x 5) as [-> | H5]; [reflexivity | ].
  destruct (Z.eqb_spec x 4) as [-> | H4]; [reflexivity | ].
  destruct (Z.eqb_spec x 3) as [-> | H3]; [reflexivity | ].
  destruct (Z.eqb_spec x 2) as [-> | H2]; [reflexivity | ].
  destruct (Z.eqb_spec x 1) as [-> | H1]; [reflexivity | ].
  destruct (Z.eqb_spec x 0) as [-> | H0]; [reflexivity | ].
  destruct ((0 <=? x)%Z && (x <=? 5)%Z) eqn:E; trivial.
  apply andb_true_iff in E. destruct E as [E1 E2].
  apply Z.leb_le in E1, E2. lia.
Qed.

Lemma D_loo_eq cat q r :
  r < length cat ->
  nth r (DM_loo cat q) zero =
  if (r =? q)%nat then sentinel else D_pair cat q r.
Proof.
  intros Hr. unfold DM_loo, D_pair. rewrite nth_update, length_DM.
  destruct (r =? q)%nat eqn:E; simpl; trivial.
  apply Nat.eqb_eq in E. subst q.
  apply Nat.ltb_lt in Hr. now rewrite Hr.
Qed.

(** Membership in the output of the four-way mask. *)
Lemma In_select dof th dm r :
  length th = length dof -> length dm = length dof ->
  In r (select cmnn_minNclr dof th dm) <->
  r < length dof /\
  (cmnn_minNclr <= nth r dof 0)%Z /\
  gtb (nth r th zero) eps = true /\
  gtb (nth r dm zero) eps = true /\
  leb (nth r dm zero) (nth r th zero) = true.
Proof.
  intros Hth Hdm. unfold select.
  set (mask := np_and _ _).
  assert (Hlen : length mask = length dof).
  { subst mask. unfold np_and. rewrite !length_map2, !length_map. lia. }
  split.
  - intros H. pose proof (np_where_lt _ _ H) as Hr. rewrite Hlen in Hr.
    apply In_np_where in H. subst mask. unfold np_and in H.
    rewrite (nth_map2 andb _ _ false false false) in H
      by (rewrite ?length_map2, ?length_map; lia).
    rewrite (nth_map2 andb _ _ false false false) in H
      by (rewrite ?length_map2, ?length_map; lia).
    rewrite (nth_map2 andb _ _ false false false) in H
      by (rewrite ?length_map2, ?length_map; lia).
    rewrite (nth_map2 leb _ _ zero zero false) in H by lia.
    rewrite nth_map_lt with (d := 0%Z) in H by lia.
    rewrite nth_map_lt with (d := zero) in H by lia.
    rewrite nth_map_lt with (d := zero) in H by lia.
    repeat (apply andb_true_iff in H; destruct H as [H ?]).
    repeat split; trivial.
    rewrite Z.geb_le in H. exact H.
  - intros (Hr & H1 & H2 & H3 & H4).
    apply In_np_where. subst mask. unfold np_and.
    rewrite (nth_map2 andb _ _ false false false)
      by (rewrite ?length_map2, ?length_map; lia).
    rewrite (nth_map2 andb _ _ false false false)
      by (rewrite ?length_map2, ?length_map; lia).
    rewrite (nth_map2 andb _ _ false false false)
      by (rewrite ?length_map2, ?length_map; lia).
    rewrite (nth_map2 leb _ _ zero zero false) by lia.
    rewrite nth_map_lt with (d := 0%Z) by lia.
    rewrite nth_map_lt with (d := zero) by lia.
    rewrite nth_map_lt with (d := zero) by lia.
    rewrite H2, H3, H4. rewrite !andb_true_r.
    apply Z.geb_le. exact H1.
Qed.

End Estimator_facts.

Section Row_facts.

Lemma DM_terms ci cr cei :
  np_div (np_square (np_sub ci cr)) (np_square cei) =
  map D_term (dims ci cr cei).
Proof.
  unfold np_div, np_square, np_sub, map2, dims.
  revert cr cei.
  induction ci as [ | a ci IH]; intros [ | b cr] [ | e cei]; simpl; trivial.
  f_equal. apply IH.
Qed.

Lemma DOF_terms ci cr :
  (let s := np_add_scalar (np_add (np_square ci) (np_square cr)) one in
   np_div s s) =
  map (fun p => div (sumsq p) (sumsq p)) (combine ci cr).
Proof.
  unfold np_div, np_add_scalar, np_add, np_square, map2. simpl.
  revert cr.
  induction ci as [ | a ci IH]; intros [ | b cr]; simpl; trivial.
  f_equal. apply IH.
Qed.


Lemma D_term_nonneg t : isnan (D_term t) = false -> nonneg (D_term t).
Proof.
  destruct t as [[a b] e]. simpl. intros H.
  destruct (isnan (sub a b)) eqn:Ed.
  { apply isnan_true in Ed. rewrite Ed in H. discriminate. }
  destruct (isnan e) eqn:Ee.
  { apply isnan_true in Ee. subst e.
    rewrite square_nan, div_nan_r in H. discriminate. }
  apply div_nonneg; trivial; apply square_nonneg; assumption.
Qed.

(** The term of a dimension is a number as soon as the two colours are
    finite and the squared colour error is a nonzero finite number. *)
Lemma D_term_defined a b e :
  is_finite a = true -> is_finite b = true -> is_number (square e) = true ->
  isnan (D_term (a, b, e)) = false.
Proof.
  intros Ha Hb He. cbn [D_term].
  apply div_number_not_nan; [ | exact He].
  apply square_nonneg, sub_finite_not_nan; assumption.
Qed.

Lemma nan_to_zero_D_term_nonneg t : nonneg (nan_to_zero (D_term t)).
Proof.
  unfold nan_to_zero. destruct (isnan (D_term t)) eqn:E.
  - reflexivity.
  - apply D_term_nonneg, E.
Qed.

Lemma fold_add_nonneg l : forall acc,
  nonneg acc -> Forall nonneg l -> nonneg (fold_left add l acc).
Proof.
  induction l as [ | x l IH]; intros acc Hacc Hl; simpl; trivial.
  inversion Hl; subst. apply IH; trivial. apply add_nonneg; assumption.
Qed.

(** The distance is never NaN and never negative. *)
Lemma DM_row_nonneg ci cei cr : nonneg (DM_row ci cei cr).
Proof.
  unfold DM_row, nansum, fsum. rewrite DM_terms.
  apply fold_add_nonneg; [reflexivity | ].
  apply Forall_forall. intros x Hx.
  apply in_map_iff in Hx. destruct Hx as [y [<- Hy]].
  apply in_map_iff in Hy. destruct Hy as [t [<- _]].
  apply nan_to_zero_D_term_nonneg.
Qed.



(** *** Degrees of freedom *)

Lemma sumsq_number_valid p : is_number (sumsq p) = true -> valid p = true.
Proof.
  destruct p as [a b]. unfold sumsq, valid, present. simpl.
  destruct (isnan a) eqn:Ea.
  { apply isnan_true in Ea. subst a. discriminate. }
  destruct (isnan b) eqn:Eb.
  { apply isnan_true in Eb. subst b.
    rewrite square_nan, add_nan_r. discriminate. }
  reflexivity.
Qed.

Lemma counted_eq p : counted p = is_number (sumsq p).
Proof.
  unfold counted. destruct (is_number (sumsq p)) eqn:E.
  - now rewrite (sumsq_number_valid p E).
  - apply andb_false_r.
Qed.

Lemma ratio_to_int p :
  to_int (nan_to_zero (div (sumsq p) (sumsq p))) =
  if counted p then 1%Z else 0%Z.
Proof.
  rewrite counted_eq, div_self.
  destruct (is_number (sumsq p)); reflexivity.
Qed.

Lemma wrap64_small z : (- 2 ^ 63 <= z < 2 ^ 63)%Z -> wrap64 z = z.
Proof. intros H. unfold wrap64. rewrite Z.mod_small; lia. Qed.

(** The 64-bit sum of the self-ratios does not wrap around: it counts the
    dimensions whose [c_q^2 + c_r^2 + 1.0] is a finite number. *)
Lemma fold_count (ps : list (float * float)) : forall acc,
  (0 <= acc)%Z -> (acc + Z.of_nat (length ps) < 2 ^ 63)%Z ->
  fold_left (fun s x => wrap64 (s + x)%Z)
    (map (fun x => to_int (nan_to_zero x))
         (map (fun p => div (sumsq p) (sumsq p)) ps)) acc =
  (acc + Z.of_nat (length (filter counted ps)))%Z.
Proof.
  induction ps as [ | p ps IH]; intros acc H0 Hb; cbn [map fold_left filter].
  - simpl. lia.
  - rewrite ratio_to_int. cbn [length] in Hb.
    destruct (counted p).
    + rewrite wrap64_small by lia. rewrite IH by lia. cbn [length]. lia.
    + rewrite wrap64_small by lia. rewrite IH by lia. lia.
Qed.

Lemma DOF_row_count ci cr :
  (Z.of_nat (length ci) < 2 ^ 63)%Z ->
  DOF_row ci cr = Z.of_nat (length (filter counted (combine ci cr))).
Proof.
  intros H. unfold DOF_row, nansum_int. rewrite DOF_terms.
  rewrite fold_count; [reflexivity | lia | ].
  rewrite length_combine. lia.
Qed.

Lemma sumsq_swap a b : sumsq (b, a) = sumsq (a, b).
Proof. unfold sumsq. simpl. now rewrite (add_comm (square b)). Qed.

Lemma counted_swap a b : counted (b, a) = counted (a, b).
Proof.
  unfold counted, valid. simpl. rewrite sumsq_swap.
  now rewrite (andb_comm (present b)).
Qed.

Lemma ratio_swap ci : forall cr,
  map (fun p => div (sumsq p) (sumsq p)) (combine ci cr) =
  map (fun p => div (sumsq p) (sumsq p)) (combine cr ci).
Proof.
  induction ci as [ | a ci IH]; intros [ | b cr]; cbn [combine map]; trivial.
  now rewrite (sumsq_swap a b), IH.
Qed.

Lemma DOF_row_sym ci cr : DOF_row ci cr = DOF_row cr ci.
Proof.
  unfold DOF_row, nansum_int. rewrite !DOF_terms. now rewrite ratio_swap.
Qed.

Lemma DOF_row_nil_r ci : DOF_row ci [] = 0%Z.
Proof.
  unfold DOF_row, nansum_int. rewrite DOF_terms. now destruct ci.
Qed.

(** A row of the catalogue has five columns (none past the end). *)
Lemma length_row_data_c cat q : length (row (data_c cat) q) <= 5.
Proof.
  unfold row, data_c.
  destruct (Nat.lt_ge_cases q (length cat)) as [H | H].
  - rewrite nth_map_lt with (d := Galaxy zero (Colors zero zero zero zero zero)
                                     (Colors zero zero zero zero zero))
      by exact H.
    simpl. lia.
  - rewrite nth_overflow by (rewrite length_map; exact H). simpl. lia.
Qed.

Lemma DM_row_nil_r ci cei : DM_row ci cei [] = zero.
Proof.
  unfold DM_row. rewrite DM_terms. unfold dims. now destruct ci.
Qed.

Lemma d_pair_eq cat q r :
  d_pair cat q r = DOF_row (row (data_c cat) q) (row (data_c cat) r).
Proof.
  unfold d_pair, DOF, row.
  rewrite <- (DOF_row_nil_r (nth q (data_c cat) [])).
  apply map_nth.
Qed.

Lemma d_pair_count cat q r :
  d_pair cat q r =
  Z.of_nat (length (filter counted
              (combine (row (data_c cat) q) (row (data_c cat) r)))).
Proof.
  rewrite d_pair_eq. apply DOF_row_count.
  pose proof (length_row_data_c cat q). lia.
Qed.

Lemma D_pair_eq cat q r :
  D_pair cat q r =
  DM_row (row (data_c cat) q) (row (data_ce cat) q) (row (data_c cat) r).
Proof.
  unfold D_pair, DM, row.
  rewrite <- (DM_row_nil_r (nth q (data_c cat) []) (nth q (data_ce cat) []))
    at 1.
  apply map_nth.
Qed.

End Row_facts.

(** ** Facts on the driver *)

Section Driver_facts.

Variable chi2_ppf : float -> Z -> float.
Variable np_std : list float -> float.
Variable rng : Type.
Variable random_choice : rng -> list nat -> nat * rng.
Variable cmnn_ppf : float.
Variable cmnn_minNclr : Z.
Variable cat : catalog.

Local Abbreviation index := (index chi2_ppf cmnn_ppf cmnn_minNclr cat).
Local Abbreviation estimate :=
  (estimate chi2_ppf np_std random_choice cmnn_ppf cmnn_minNclr cat).
Local Abbreviation iteration :=
  (iteration chi2_ppf np_std random_choice cmnn_ppf cmnn_minNclr cat).
Local Abbreviation loop :=
  (loop chi2_ppf np_std random_choice cmnn_ppf cmnn_minNclr cat).
Local Abbreviation run :=
  (run chi2_ppf np_std random_choice cmnn_ppf cmnn_minNclr cat).

Local Abbreviation estimated :=
  (estimated chi2_ppf np_std random_choice cmnn_ppf cmnn_minNclr cat).
Local Abbreviation processed :=
  (processed chi2_ppf np_std random_choice cmnn_ppf cmnn_minNclr cat).

Lemma processed_initial g : processed 0 (initial cat g).
Proof.
  unfold processed, initial, pending. simpl.
  rewrite !repeat_length. repeat split; try lia;
    apply nth_repeat_lt; assumption.
Qed.

Lemma estimate_lengths i st :
  length (data_pz (estimate i st)) = length (data_pz st) /\
  length (data_pze (estimate i st)) = length (data_pze st).
Proof.
  unfold estimate.
  destruct (0 <? length (index i)).
  - destruct (random_choice (gen st) (index i)) as [rival g'].
    simpl. now rewrite !length_update.
  - simpl. now rewrite !length_update.
Qed.

Lemma estimate_other i j st :
  j <> i ->
  nth j (data_pz (estimate i st)) zero = nth j (data_pz st) zero /\
  nth j (data_pze (estimate i st)) zero = nth j (data_pze st) zero.
Proof.
  intros H. unfold estimate.
  destruct (0 <? length (index i)).
  - destruct (random_choice (gen st) (index i)) as [rival g'].
    simpl. now rewrite !nth_update_other.
  - simpl. now rewrite !nth_update_other.
Qed.

Lemma estimate_same i st :
  i < length (data_pz st) -> i < length (data_pze st) ->
  estimated i (estimate i st).
Proof.
  intros H1 H2. unfold estimated, estimate.
  destruct (index i) as [ | r idx] eqn:E.
  - left. simpl. rewrite !nth_update_same by assumption. auto.
  - right. simpl.
    destruct (random_choice (gen st) (r :: idx)) as [rival g'] eqn:Ec.
    simpl. rewrite !nth_update_same by assumption.
    split; [discriminate | ]. split; trivial.
    exists (gen st). now rewrite Ec.
Qed.

Lemma estimated_ext i st st' :
  nth i (data_pz st') zero = nth i (data_pz st) zero ->
  nth i (data_pze st') zero = nth i (data_pze st) zero ->
  estimated i st -> estimated i st'.
Proof. unfold estimated. intros -> ->. trivial. Qed.

Lemma processed_step k st :
  k < length cat -> processed k st -> processed (S k) (estimate k st).
Proof.
  intros Hk (Hpz & Hpze & H).
  destruct (estimate_lengths k st) as [L1 L2].
  split; [congruence | ]. split; [congruence | ].
  intros i Hi. destruct (Nat.eq_dec i k) as [-> | Hne].
  - split; [ | lia]. intros _. apply estimate_same; lia.
  - destruct (estimate_other st Hne) as [E1 E2].
    destruct (H i Hi) as [Ha Hb]. split; intros Hik.
    + apply estimated_ext with (st := st); trivial. apply Ha. lia.
    + unfold pending. rewrite E1, E2. apply Hb. lia.
Qed.

(** *** Exceptions *)

Lemma progress_report_none Ncalc i :
  Ncalc <> 1000 -> progress_report Ncalc i = None.
Proof.
  intros H. unfold progress_report.
  destruct (progress_due Ncalc i) eqn:E; trivial.
  destruct (i =? 0) eqn:E0; trivial.
  apply Nat.eqb_eq in E0. subst i.
  unfold progress_due in E. cbn [Nat.eqb orb Z.of_nat] in E.
  apply Z.eqb_eq in E. lia.
Qed.

Lemma progress_report_1000 : progress_report 1000 0 = Some ZeroDivisionError.
Proof. reflexivity. Qed.

Lemma loop_app Ncalc l1 l2 st :
  loop Ncalc (l1 ++ l2) st =
  match loop Ncalc l1 st with
  | Done st' => loop Ncalc l2 st'
  | Raised e st' => Raised e st'
  end.
Proof.
  revert st. induction l1 as [ | i l1 IH]; intros st; simpl; trivial.
  destruct (iteration Ncalc i st); trivial.
Qed.

(** Without an exception the loop processes the galaxies one after the
    other. *)
Lemma loop_processed Ncalc n : forall k st,
  Ncalc <> 1000 -> k + n <= length cat -> processed k st ->
  exists st', loop Ncalc (seq k n) st = Done st' /\ processed (k + n) st'.
Proof.
  induction n as [ | n IH]; intros k st Hc Hk Hp; simpl.
  - exists st. rewrite Nat.add_0_r. auto.
  - unfold iteration.
    rewrite (progress_report_none k Hc).
    assert (Hlt : (length cat <=? k) = false) by (apply Nat.leb_gt; lia).
    rewrite Hlt.
    destruct (IH (S k) (estimate k st) Hc) as [st' [E P]].
    + lia.
    + apply processed_step; [lia | exact Hp].
    + exists st'. split; [exact E | ].
      replace (k + S n) with (S k + n) by lia. exact P.
Qed.

(** The three ways the run can end. *)
Lemma run_outcome Ncalc g :
  (Ncalc = 1000 /\ run Ncalc g = Raised ZeroDivisionError (initial cat g))
  \/
  (Ncalc <> 1000 /\ Ncalc <= length cat /\
   exists st, run Ncalc g = Done st /\ processed Ncalc st)
  \/
  (Ncalc <> 1000 /\ length cat < Ncalc /\
   exists st, run Ncalc g = Raised IndexError st /\
              processed (length cat) st).
Proof.
  unfold run.
  destruct (Nat.eq_dec Ncalc 1000) as [-> | Hc].
  { left. split; trivial. }
  right. destruct (Nat.le_gt_cases Ncalc (length cat)) as [Hle | Hgt].
  - left. split; trivial. split; trivial.
    apply (@loop_processed Ncalc Ncalc 0); trivial.
    apply processed_initial.
  - right. split; trivial. split; trivial.
    assert (Hs : seq 0 Ncalc =
                 seq 0 (length cat)
                 ++ seq (length cat) (S (Ncalc - S (length cat))))
      by (rewrite <- seq_app; f_equal; lia).
    rewrite Hs, loop_app.
    destruct (@loop_processed Ncalc (length cat) 0 (initial cat g) Hc)
      as [st [E P]].
    + lia.
    + apply processed_initial.
    + rewrite E. exists st. split; [ | exact P].
      simpl. unfold iteration.
      rewrite (progress_report_none _ Hc), Nat.leb_refl. reflexivity.
Qed.

End Driver_facts.

(** ** Selection, self-exclusion and zero errors *)

Section Selection_facts.

Variable chi2_ppf : float -> Z -> float.
Variable cmnn_ppf : float.
Variable cmnn_minNclr : Z.

Local Abbreviation threshold := (threshold chi2_ppf cmnn_ppf).
Local Abbreviation index := (index chi2_ppf cmnn_ppf cmnn_minNclr).

Lemma In_index_iff cat q r :
  In r (index cat q) <->
  r < length cat /\
  (cmnn_minNclr <= d_pair cat q r)%Z /\
  gtb (threshold (d_pair cat q r)) eps = true /\
  gtb (D_loo cat q r) eps = true /\
  leb (D_loo cat q r) (threshold (d_pair cat q r)) = true.
Proof.
  unfold index.
  rewrite In_select;
    [ | apply length_data_th
      | unfold DM_loo; now rewrite length_update, length_DM, length_DOF ].
  rewrite length_DOF.
  assert (E : r < length cat ->
              nth r (data_th chi2_ppf cmnn_ppf (DOF cat q)) zero =
              threshold (d_pair cat q r) /\
              nth r (DM_loo cat q) zero = D_loo cat q r).
  { intros Hr. split.
    - apply nth_data_th. now rewrite length_DOF.
    - apply D_loo_eq, Hr. }
  fold (d_pair cat q r).
  split; intros (Hr & H1 & H2 & H3 & H4); destruct (E Hr) as [Et Ed];
    rewrite ?Et, ?Ed in *; auto.
Qed.

(** Every threshold is [0.0] or one of the five quantiles. *)
Lemma threshold_cases d :
  threshold d = zero \/
  exists k, (1 <= k <= 5)%Z /\ threshold d = chi2_ppf cmnn_ppf k.
Proof.
  unfold threshold.
  destruct ((0 <=? d)%Z && (d <=? 5)%Z) eqn:E; [ | now left].
  apply andb_true_iff in E. destruct E as [E1 E2].
  apply Z.leb_le in E1, E2.
  assert (Hd : (d = 0 \/ d = 1 \/ d = 2 \/ d = 3 \/ d = 4 \/ d = 5)%Z)
    by lia.
  destruct Hd as [-> | [-> | [-> | [-> | [-> | ->]]]]].
  - now left.
  - right. exists 1%Z. split; [lia | reflexivity].
  - right. exists 2%Z. split; [lia | reflexivity].
  - right. exists 3%Z. split; [lia | reflexivity].
  - right. exists 4%Z. split; [lia | reflexivity].
  - right. exists 5%Z. split; [lia | reflexivity].
Qed.

End Selection_facts.

Section Zero_error_facts.

Lemma D_term_zero_error a b e :
  is_zero e = true ->
  isnan (square (sub a b)) = false ->
  is_zero (square (sub a b)) = false ->
  D_term (a, b, e) = pinf.
Proof.
  intros He Hn Hz. simpl.
  assert (Hs : nonneg (square (sub a b))).
  { apply square_nonneg. now rewrite <- square_isnan. }
  destruct e as [s | s | | s m x]; try discriminate.
  replace (square (S754_zero s)) with zero
    by (destruct s; reflexivity).
  unfold nonneg in Hs.
  destruct (square (sub a b)) as [s' | s' | | s' m' x'];
    simpl in *; try discriminate; try contradiction; subst; reflexivity.
Qed.

Lemma add_pinf_r acc : nonneg acc -> add acc pinf = pinf.
Proof.
  unfold nonneg. destruct acc as [s | s | | s m e]; simpl; intros H;
    try contradiction; subst; reflexivity.
Qed.

Lemma add_pinf_l x : nonneg x -> add pinf x = pinf.
Proof.
  unfold nonneg. destruct x as [s | s | | s m e]; simpl; intros H;
    try contradiction; subst; reflexivity.
Qed.

Lemma fold_add_pinf l :
  Forall nonneg l -> fold_left add l pinf = pinf.
Proof.
  induction l as [ | x l IH]; intros H; cbn [fold_left]; trivial.
  inversion H; subst. rewrite add_pinf_l by assumption. now apply IH.
Qed.

Lemma Forall_nonneg_terms ts :
  Forall nonneg (map nan_to_zero (map D_term ts)).
Proof.
  apply Forall_forall. intros x Hx.
  apply in_map_iff in Hx. destruct Hx as [y [<- Hy]].
  apply in_map_iff in Hy. destruct Hy as [t [<- _]].
  apply nan_to_zero_D_term_nonneg.
Qed.

Lemma nansum_pinf t ts :
  In t ts -> D_term t = pinf ->
  forall acc, nonneg acc ->
  fold_left add (map nan_to_zero (map D_term ts)) acc = pinf.
Proof.
  intros Hin Ht.
  induction ts as [ | x ts IH]; intros acc Hacc; [contradiction | ].
  cbn [map fold_left]. destruct Hin as [-> | Hin].
  - rewrite Ht. change (nan_to_zero pinf) with pinf.
    rewrite add_pinf_r by exact Hacc.
    apply fold_add_pinf, Forall_nonneg_terms.
  - apply IH; trivial.
    apply add_nonneg; trivial. apply nan_to_zero_D_term_nonneg.
Qed.

Lemma DM_row_pinf ci cei cr t :
  In t (dims ci cr cei) -> D_term t = pinf -> DM_row ci cei cr = pinf.
Proof.
  intros Hin Ht. unfold DM_row, nansum, fsum. rewrite DM_terms.
  apply (nansum_pinf t); trivial. reflexivity.
Qed.

End Zero_error_facts.

(** * The claims *)

(** ** C1: the CMNN subset *)

(** C1, as the code has it.  The subset of the test galaxy [q] is exactly
    the set of positions [r] of the catalogue with
    [d(q,r) >= cmnn_minNclr], threshold above [0.0001], distance above
    [0.0001] and distance at most the threshold, where the distance of [q]
    to itself has been replaced by [99.9]: the two lower bounds are the
    literal [0.00010], not zero. *)
Theorem index_membership
    (chi2_ppf : float -> Z -> float) (cmnn_ppf : float) (cmnn_minNclr : Z)
    (cat : catalog) (q r : nat) :
  In r (index chi2_ppf cmnn_ppf cmnn_minNclr cat q) <->
  r < length cat /\
  (cmnn_minNclr <= d_pair cat q r)%Z /\
  gtb (threshold chi2_ppf cmnn_ppf (d_pair cat q r)) eps = true /\
  gtb (D_loo cat q r) eps = true /\
  leb (D_loo cat q r) (threshold chi2_ppf cmnn_ppf (d_pair cat q r)) = true.
Proof. apply In_index_iff. Qed.

(** C1 as stated fails: in [cat4] the galaxy 1 lies at distance [2.5e-5]
    from the galaxy 0; it has five degrees of freedom, a positive
    threshold and a positive distance below the threshold, and yet it is
    not in the subset of galaxy 0. *)
Lemma index_misses_small_distance :
  (5 <= d_pair cat4 0 1)%Z /\
  gtb (threshold ppf68 p68 (d_pair cat4 0 1)) zero = true /\
  gtb (D_pair cat4 0 1) zero = true /\
  leb (D_pair cat4 0 1) (threshold ppf68 p68 (d_pair cat4 0 1)) = true /\
  ~ In 1 (index ppf68 p68 5 cat4 0).
Proof.
  repeat split; try (vm_compute; reflexivity).
  - vm_compute. discriminate.
  - vm_compute. intros [H | []]. discriminate.
Qed.

(** ** C2: self-exclusion *)

(** C2.  Whenever [chi2.ppf] stays below [99.9] on the five degrees of
    freedom for the probabilities in (0,1), no galaxy is in its own
    subset, whatever [cmnn_minNclr] is. *)
Theorem self_excluded
    (chi2_ppf : float -> Z -> float)
    (Hbelow : forall p d, gtb p zero = true -> ltb p one = true ->
                (1 <= d <= 5)%Z -> ltb (chi2_ppf p d) sentinel = true)
    (cmnn_ppf : float) (cmnn_minNclr : Z) (cat : catalog) (g : nat) :
  gtb cmnn_ppf zero = true -> ltb cmnn_ppf one = true ->
  ~ In g (index chi2_ppf cmnn_ppf cmnn_minNclr cat g).
Proof.
  intros Hp0 Hp1 Hin. apply In_index_iff in Hin.
  destruct Hin as (_ & _ & _ & _ & H).
  unfold D_loo in H. rewrite Nat.eqb_refl in H.
  destruct (threshold_cases chi2_ppf cmnn_ppf (d_pair cat g g))
    as [E | [k [Hk E]]]; rewrite E in H.
  - vm_compute in H. discriminate.
  - rewrite (ltb_leb_false _ _ (Hbelow cmnn_ppf k Hp0 Hp1 Hk)) in H.
    discriminate.
Qed.

Lemma cases_1_5 (P : Z -> Prop) :
  P 1%Z -> P 2%Z -> P 3%Z -> P 4%Z -> P 5%Z ->
  forall d, (1 <= d <= 5)%Z -> P d.
Proof.
  intros H1 H2 H3 H4 H5 d Hd.
  assert (E : (d = 1 \/ d = 2 \/ d = 3 \/ d = 4 \/ d = 5)%Z) by lia.
  destruct E as [-> | [-> | [-> | [-> | ->]]]]; assumption.
Qed.

(** The bound on [chi2.ppf] cannot be dropped: with a table whose entry for
    five degrees of freedom is 100.0, the galaxy 0 of [cat4] is a member of
    its own subset. *)
Example self_included_above_sentinel :
  In 0 (index (fun _ d => if (d =? 5)%Z then of_Z 100 else one)
              p68 5 cat4 0).
Proof. vm_compute. left. reflexivity. Qed.

Lemma self_excluded_witness : ~ In 0 (index ppf68 p68 5 cat4 0).
Proof.
  apply (self_excluded ppf68); [ | reflexivity | reflexivity].
  intros p d _ _.
  apply (cases_1_5 (fun d => ltb (ppf68 p d) sentinel = true));
    reflexivity.
Defined.

(** ** C3: the distance *)



(** ** C4: the degrees of freedom *)




(** ** C5: the threshold table *)



(** ** C6: an empty subset *)

(** C6.  A run whose cap does not exceed the catalogue (and is not the one
    value, 1000, at which the progress report divides by zero) ends
    without an exception, and every processed galaxy whose subset is empty
    has NaN in both output slots, whatever [cmnn_ppf] and [cmnn_minNclr]
    are. *)
Theorem empty_subset_writes_nan
    (chi2_ppf : float -> Z -> float) (np_std : list float -> float)
    (rng : Type) (random_choice : rng -> list nat -> nat * rng)
    (cmnn_ppf : float) (cmnn_minNclr : Z)
    (cat : catalog) (Ncalc : nat) (g : rng) :
  Ncalc <= length cat -> Ncalc <> 1000 ->
  exists st,
    run chi2_ppf np_std random_choice cmnn_ppf cmnn_minNclr cat Ncalc g
      = Done st /\
    forall i, i < Ncalc ->
      index chi2_ppf cmnn_ppf cmnn_minNclr cat i = [] ->
      nth i (data_pz st) zero = nan /\ nth i (data_pze st) zero = nan.
Proof.
  intros Hle Hc.
  destruct (run_outcome chi2_ppf np_std random_choice cmnn_ppf cmnn_minNclr
              cat Ncalc g)
    as [[E _] | [(_ & _ & st & E & P) | (_ & Hgt & _)]]; try lia.
  exists st. split; [exact E | ].
  intros i Hi Hidx. destruct P as (_ & _ & P).
  destruct (P i) as [Pi _]; [lia | ].
  destruct (Pi Hi) as [(_ & H1 & H2) | (Hne & _)]; [auto | contradiction].
Qed.

Lemma empty_subset_writes_nan_witness :
  exists st,
    run ppf68 std_sequential first_choice p68 5 cat4 4 tt = Done st /\
    forall i, i < 4 ->
      index ppf68 p68 5 cat4 i = [] ->
      nth i (data_pz st) zero = nan /\ nth i (data_pze st) zero = nan.
Proof.
  apply (@empty_subset_writes_nan ppf68 std_sequential unit first_choice
           p68 5 cat4 4 tt).
  - simpl. lia.
  - discriminate.
Defined.

(** ** C7: configuration *)



(** ** C8: a colour error of zero *)

(** C8, as the code has it.  A colour error of zero is not detected.  The
    distance is never NaN (nor negative); the degrees of freedom read the
    colours only, so the dimension stays counted; and when the squared
    colour difference of that dimension is a non-zero number, the
    distance is plus infinity. *)
Theorem zero_error_not_detected (cat : catalog) (q r : nat) :
  nonneg (D_pair cat q r) /\
  (forall cat', data_c cat' = data_c cat -> d_pair cat' q r = d_pair cat q r)
  /\
  (forall a b e,
      In (a, b, e) (dims (row (data_c cat) q) (row (data_c cat) r)
                         (row (data_ce cat) q)) ->
      is_zero e = true ->
      isnan (square (sub a b)) = false ->
      is_zero (square (sub a b)) = false ->
      D_pair cat q r = pinf).
Proof.
  split; [ | split].
  - rewrite D_pair_eq. apply DM_row_nonneg.
  - intros cat' H. unfold d_pair, DOF. now rewrite H.
  - intros a b e Hin He Hn Hz. rewrite D_pair_eq.
    apply (DM_row_pinf _ _ _ (a, b, e)); trivial.
    apply D_term_zero_error; assumption.
Qed.

(** C8 as stated fails: in [cat_zero_error] the first colour error of the
    galaxy 0 is zero; the distance from it to the galaxy 1 is plus
    infinity and all five dimensions are counted. *)
Lemma zero_error_gives_infinity :
  nth 0 (row (data_ce cat_zero_error) 0) nan = zero /\
  D_pair cat_zero_error 0 1 = pinf /\
  d_pair cat_zero_error 0 1 = 5%Z.
Proof. repeat split; vm_compute; reflexivity. Qed.

(** ** C9: the output arrays *)

(** C9, as the code has it.  After a run that ends normally, a galaxy
    below the cap holds either NaN in both slots, or the true redshift of
    a member of its subset together with the standard deviation of the
    subset's redshifts (itself NaN or non-negative); a galaxy at or
    beyond the cap still holds the initial [-1.0] in both slots.  The
    statement supposes [np.random.choice] to return one of the candidates
    and [np.std] to return NaN or a non-negative value. *)
Theorem outputs_after_run
    (chi2_ppf : float -> Z -> float) (np_std : list float -> float)
    (rng : Type) (random_choice : rng -> list nat -> nat * rng)
    (Hchoice : forall g idx, idx <> [] -> In (fst (random_choice g idx)) idx)
    (Hstd : forall x, isnan (np_std x) = true \/ geb (np_std x) zero = true)
    (cmnn_ppf : float) (cmnn_minNclr : Z)
    (cat : catalog) (Ncalc : nat) (g : rng) :
  Ncalc <= length cat -> Ncalc <> 1000 ->
  exists st,
    run chi2_ppf np_std random_choice cmnn_ppf cmnn_minNclr cat Ncalc g
      = Done st /\
    forall i, i < length cat ->
      (i < Ncalc ->
         (nth i (data_pz st) zero = nan /\ nth i (data_pze st) zero = nan)
         \/
         (exists rival,
             In rival (index chi2_ppf cmnn_ppf cmnn_minNclr cat i) /\
             nth i (data_pz st) zero = nth rival (data_tz cat) nan /\
             nth i (data_pze st) zero =
               np_std (take (data_tz cat)
                            (index chi2_ppf cmnn_ppf cmnn_minNclr cat i) nan)
             /\
             (isnan (nth i (data_pze st) zero) = true \/
              geb (nth i (data_pze st) zero) zero = true)))
      /\
      (Ncalc <= i ->
         nth i (data_pz st) zero = minus_one /\
         nth i (data_pze st) zero = minus_one).
Proof.
  intros Hle Hc.
  destruct (run_outcome chi2_ppf np_std random_choice cmnn_ppf cmnn_minNclr
              cat Ncalc g)
    as [[E _] | [(_ & _ & st & E & P) | (_ & Hgt & _)]]; try lia.
  exists st. split; [exact E | ].
  intros i Hi. destruct P as (_ & _ & P). destruct (P i Hi) as [Pa Pb].
  split; [ | exact Pb].
  intros Hlt. destruct (Pa Hlt) as [(_ & H1 & H2) | (Hne & [g' H1] & H2)].
  - left. auto.
  - right. exists (fst (random_choice g' (index chi2_ppf cmnn_ppf
                                                 cmnn_minNclr cat i))).
    split; [apply Hchoice, Hne | ]. split; [exact H1 | ].
    split; [exact H2 | ]. rewrite H2. apply Hstd.
Qed.

Lemma outputs_after_run_witness :
  exists st,
    run ppf68 std_sequential first_choice p68 5 cat4 2 tt = Done st /\
    forall i, i < length cat4 ->
      (i < 2 ->
         (nth i (data_pz st) zero = nan /\ nth i (data_pze st) zero = nan)
         \/
         (exists rival,
             In rival (index ppf68 p68 5 cat4 i) /\
             nth i (data_pz st) zero = nth rival (data_tz cat4) nan /\
             nth i (data_pze st) zero =
               std_sequential (take (data_tz cat4)
                                    (index ppf68 p68 5 cat4 i) nan)
             /\
             (isnan (nth i (data_pze st) zero) = true \/
              geb (nth i (data_pze st) zero) zero = true)))
      /\
      (2 <= i ->
         nth i (data_pz st) zero = minus_one /\
         nth i (data_pze st) zero = minus_one).
Proof.
  apply (@outputs_after_run ppf68 std_sequential unit first_choice
           first_choice_In std_sequential_range p68 5 cat4 2 tt).
  - simpl. lia.
  - discriminate.
Defined.

(** C9 as stated fails: with the cap 2 on the four galaxies of [cat4] the
    run ends normally and the uncertainty slot of galaxy 3 holds [-1.0],
    which is neither NaN nor a value at least zero. *)
Lemma capped_run_leaves_minus_one :
  exists st,
    run ppf68 std_sequential first_choice p68 5 cat4 2 tt = Done st /\
    nth 3 (data_pze st) zero = minus_one /\
    isnan (nth 3 (data_pze st) zero) = false /\
    geb (nth 3 (data_pze st) zero) zero = false.
Proof. eexists. split; [vm_compute; reflexivity | ]. repeat split. Qed.

(** ** C10: symmetry *)

(** C10.  The degrees of freedom of a pair do not depend on which of the
    two galaxies is the test galaxy; the distance does, as the two
    galaxies of [cat_two_errors] show. *)
Theorem dof_symmetric_distance_not :
  (forall cat q r, d_pair cat q r = d_pair cat r q) /\
  (exists cat q r, D_pair cat q r <> D_pair cat r q).
Proof.
  split.
  - intros cat q r. rewrite !d_pair_eq. apply DOF_row_sym.
  - exists cat_two_errors, 0, 1. vm_compute. discriminate.
Qed.

(** * Further properties *)

(** ** More facts on binary64 arithmetic *)

Section More_float_facts.

(** A difference is NaN only for a NaN operand or for two infinities of
    the same sign. *)
Lemma sub_isnan_iff x y :
  isnan (sub x y) = true <->
  isnan x = true \/ isnan y = true \/
  exists s, x = S754_infinity s /\ y = S754_infinity s.
Proof.
  split.
  - destruct x as [sx | sx | | sx mx ex]; try (intros _; left; reflexivity);
      destruct y as [sy | sy | | sy my ey];
      try (intros _; right; left; reflexivity);
      try (simpl; discriminate).
    + destruct sx, sy; simpl; discriminate.
    + destruct sx, sy; simpl; try discriminate;
        intros _; right; right; eexists; split; reflexivity.
    + unfold sub, SFsub. rewrite binary_normalize_not_nan. discriminate.
  - intros [H | [H | [s [-> ->]]]].
    + apply isnan_true in H. subst x. reflexivity.
    + apply isnan_true in H. subst y. now rewrite sub_nan_r.
    + destruct s; reflexivity.
Qed.

Lemma sqrt_nonneg x : nonneg x -> nonneg (sqrt x).
Proof.
  intros H. destruct (sqrt_nonneg_or_nan (or_intror H)) as [E | E]; trivial.
  exfalso. unfold nonneg in H.
  destruct x as [s | s | | s m e]; simpl in H; try contradiction; subst;
    try discriminate.
  unfold sqrt, SFsqrt in E.
  pose proof (sqrt_core_nonneg m e) as Hc.
  destruct (SFsqrt_core_binary prec emax (Zpos m) e) as [[mz ez] lz].
  simpl in Hc.
  rewrite (signed_not_nan _ _ (binary_round_aux_signed false ez lz Hc)) in E.
  discriminate.
Qed.

Lemma sqrt_nan : sqrt nan = nan.
Proof. reflexivity. Qed.

(** [sqrt(a**2 + b**2)] is NaN exactly when [a] or [b] is, and is
    non-negative otherwise. *)
Lemma quadrature_isnan a b :
  isnan (quadrature a b) = isnan a || isnan b.
Proof.
  unfold quadrature.
  destruct (isnan a) eqn:Ea.
  { apply isnan_true in Ea. subst a. reflexivity. }
  destruct (isnan b) eqn:Eb.
  { apply isnan_true in Eb. subst b.
    now rewrite square_nan, add_nan_r, sqrt_nan. }
  simpl. eapply signed_not_nan, sqrt_nonneg, add_nonneg;
    apply square_nonneg; assumption.
Qed.

Lemma quadrature_nonneg a b :
  isnan a = false -> isnan b = false -> nonneg (quadrature a b).
Proof.
  intros Ha Hb. unfold quadrature.
  apply sqrt_nonneg, add_nonneg; apply square_nonneg; assumption.
Qed.

(** [x - x] is [+0.0], or NaN when [x] is NaN or infinite. *)
Lemma sub_self x : sub x x = zero \/ sub x x = nan.
Proof.
  destruct x as [s | s | | s m e].
  - left. destruct s; reflexivity.
  - right. destruct s; reflexivity.
  - right. reflexivity.
  - left. unfold sub, SFsub. now rewrite Z.sub_diag.
Qed.

(** The term of a dimension in which the two colours are the same float
    contributes nothing to the distance. *)
Lemma D_term_same a e : nan_to_zero (D_term (a, a, e)) = zero.
Proof.
  cbn [D_term]. destruct (sub_self a) as [-> | ->]; [ | reflexivity].
  change (square zero) with zero.
  destruct (isnan e) eqn:Ee.
  { apply isnan_true in Ee. subst e. reflexivity. }
  pose proof (square_nonneg e Ee) as Hs. unfold nonneg in Hs.
  destruct (square e) as [s' | s' | | s' m' x']; simpl in Hs;
    try contradiction; subst; reflexivity.
Qed.

Lemma gtb_zero_not_nan x : gtb x zero = true -> isnan x = false.
Proof. destruct x; simpl; trivial; discriminate. Qed.

End More_float_facts.

(** ** More facts on rows, degrees of freedom and selection *)

Section More_row_facts.

Lemma row_data_c_in cat q g0 :
  q < length cat -> row (data_c cat) q = columns (c (nth q cat g0)).
Proof.
  intros H. unfold row, data_c.
  now rewrite nth_map_lt with (d := g0) by exact H.
Qed.

Lemma row_data_c_out cat q :
  length cat <= q -> row (data_c cat) q = [].
Proof.
  intros H. unfold row, data_c.
  apply nth_overflow. now rewrite length_map.
Qed.

Lemma d_pair_range cat q r : (0 <= d_pair cat q r <= 5)%Z.
Proof.
  rewrite d_pair_count.
  pose proof (filter_length_le counted
                (combine (row (data_c cat) q) (row (data_c cat) r))) as H1.
  pose proof (length_row_data_c cat q) as H2.
  rewrite length_combine in H1. lia.
Qed.

Lemma counted_nan_l a b : isnan a = true -> counted (a, b) = false.
Proof. intros H. unfold counted, valid, present. simpl. now rewrite H. Qed.

Lemma d_pair_sym cat q r : d_pair cat q r = d_pair cat r q.
Proof. rewrite !d_pair_eq. apply DOF_row_sym. Qed.

(** A missing colour of the test galaxy costs one degree of freedom with
    every training galaxy. *)
Lemma d_pair_missing cat q r k :
  k < 5 -> isnan (nth k (row (data_c cat) q) zero) = true ->
  (d_pair cat q r <= 4)%Z.
Proof.
  intros Hk Hnan. rewrite d_pair_count.
  destruct (Nat.lt_ge_cases q (length cat)) as [Hq | Hq].
  2:{ rewrite (row_data_c_out cat Hq). simpl. lia. }
  destruct (Nat.lt_ge_cases r (length cat)) as [Hr | Hr].
  2:{ rewrite (row_data_c_out cat Hr).
      rewrite combine_nil. simpl. lia. }
  set (g0 := Galaxy zero (uniform zero) (uniform zero)).
  rewrite (row_data_c_in cat g0 Hq) in *.
  rewrite (row_data_c_in cat g0 Hr).
  destruct (c (nth q cat g0)) as [a0 a1 a2 a3 a4].
  destruct (c (nth r cat g0)) as [b0 b1 b2 b3 b4].
  unfold columns in *. cbn [u_g g_r r_i i_z z_y combine filter] in *.
  assert (Hk' : k = 0 \/ k = 1 \/ k = 2 \/ k = 3 \/ k = 4) by lia.
  destruct Hk' as [-> | [-> | [-> | [-> | ->]]]]; cbn [nth] in Hnan;
    match type of Hnan with
    | isnan ?a = true =>
        match goal with
        | |- context [counted (a, ?b)] =>
            rewrite (counted_nan_l a b Hnan)
        end
    end;
    repeat match goal with
           | |- context [if counted ?p then _ else _] => destruct (counted p)
           end;
    cbn [length]; lia.
Qed.

Section With_parameters.

Variable chi2_ppf : float -> Z -> float.
Variable cmnn_ppf : float.
Variable cmnn_minNclr : Z.

Local Abbreviation index := (index chi2_ppf cmnn_ppf cmnn_minNclr).

Lemma low_dof_not_selected cat q r :
  (d_pair cat q r < cmnn_minNclr)%Z -> ~ In r (index cat q).
Proof.
  intros H Hin. apply In_index_iff in Hin. lia.
Qed.

Lemma no_member_nil (l : list nat) : (forall r, ~ In r l) -> l = [].
Proof.
  destruct l as [ | x l]; trivial. intros H. exfalso. apply (H x). now left.
Qed.

End With_parameters.

Lemma fold_add_zeros ts :
  (forall t, In t ts -> nan_to_zero (D_term t) = zero) ->
  fold_left add (map nan_to_zero (map D_term ts)) zero = zero.
Proof.
  induction ts as [ | t ts IH]; intros H; cbn [map fold_left]; trivial.
  rewrite (H t) by now left.
  change (add zero zero) with zero.
  apply IH. intros t' Ht'. apply H. now right.
Qed.

Lemma dims_same l : forall e t,
  In t (dims l l e) -> exists a x, t = (a, a, x).
Proof.
  unfold dims. induction l as [ | a l IH]; intros [ | x e] t;
    cbn [combine]; try contradiction.
  intros [<- | H]; [now exists a, x | exact (IH e t H)].
Qed.

(** Two rows holding the same floats are at distance [+0.0]. *)
Lemma DM_row_same ci cei : DM_row ci cei ci = zero.
Proof.
  unfold DM_row, nansum, fsum. rewrite DM_terms.
  apply fold_add_zeros. intros t Ht.
  destruct (dims_same _ _ _ Ht) as [a [x ->]]. apply D_term_same.
Qed.

(** [np.where] lists positions in increasing order. *)
Lemma where_from_sorted mask : forall k,
  StronglySorted lt (where_from k mask).
Proof.
  induction mask as [ | b mask IH]; intros k; cbn [where_from].
  - constructor.
  - destruct b; [ | apply IH].
    constructor; [apply IH | ].
    apply Forall_forall. intros r Hr.
    apply In_where_from in Hr. lia.
Qed.

End More_row_facts.

(** ** More facts on the driver *)

Section More_driver_facts.

Variable chi2_ppf : float -> Z -> float.
Variable np_std : list float -> float.
Variable rng : Type.
Variable random_choice : rng -> list nat -> nat * rng.
Variable cmnn_ppf : float.
Variable cmnn_minNclr : Z.
Variable cat : catalog.

Local Abbreviation index := (index chi2_ppf cmnn_ppf cmnn_minNclr cat).
Local Abbreviation estimate :=
  (estimate chi2_ppf np_std random_choice cmnn_ppf cmnn_minNclr cat).
Local Abbreviation iteration :=
  (iteration chi2_ppf np_std random_choice cmnn_ppf cmnn_minNclr cat).
Local Abbreviation loop :=
  (loop chi2_ppf np_std random_choice cmnn_ppf cmnn_minNclr cat).
Local Abbreviation run :=
  (run chi2_ppf np_std random_choice cmnn_ppf cmnn_minNclr cat).
Local Abbreviation estimated :=
  (estimated chi2_ppf np_std random_choice cmnn_ppf cmnn_minNclr cat).
Local Abbreviation processed :=
  (processed chi2_ppf np_std random_choice cmnn_ppf cmnn_minNclr cat).

(** The progress report raises for the first galaxy of a run capped at
    1000, and never otherwise. *)
Lemma progress_report_some Ncalc i e :
  progress_report Ncalc i = Some e <->
  i = 0 /\ Ncalc = 1000 /\ e = ZeroDivisionError.
Proof.
  split.
  - intros H. destruct (Nat.eq_dec Ncalc 1000) as [-> | Hc].
    + unfold progress_report in H.
      destruct (progress_due 1000 i); [ | discriminate].
      destruct (i =? 0) eqn:E; [ | discriminate].
      apply Nat.eqb_eq in E. inversion H. auto.
    + rewrite (progress_report_none i Hc) in H. discriminate.
  - intros (-> & -> & ->). reflexivity.
Qed.

(** The cap enters an iteration through the progress report only. *)
Lemma loop_cap_irrelevant N1 N2 l : forall st,
  N1 <> 1000 -> N2 <> 1000 -> loop N1 l st = loop N2 l st.
Proof.
  induction l as [ | i l IH]; intros st H1 H2; simpl; trivial.
  unfold iteration.
  rewrite (progress_report_none i H1), (progress_report_none i H2).
  destruct (length cat <=? i); trivial. now apply IH.
Qed.

(** Later passes of the loop leave the slots of the earlier galaxies
    alone. *)
Lemma loop_preserves_below Ncalc k l : forall st st',
  (forall j, In j l -> k <= j) ->
  loop Ncalc l st = Done st' ->
  forall i, i < k ->
    nth i (data_pz st') zero = nth i (data_pz st) zero /\
    nth i (data_pze st') zero = nth i (data_pze st) zero.
Proof.
  induction l as [ | j l IH]; intros st st' Hl H i Hi; simpl in H.
  - inversion H. auto.
  - unfold iteration in H.
    destruct (progress_report Ncalc j); [discriminate | ].
    destruct (length cat <=? j); [discriminate | ].
    assert (Hj : k <= j) by (apply Hl; now left).
    assert (Hne : i <> j) by lia.
    destruct (estimate_other chi2_ppf np_std random_choice cmnn_ppf
                cmnn_minNclr cat st Hne) as [E1 E2].
    destruct (IH (estimate j st) st') with (i := i) as [F1 F2]; trivial.
    + intros j' Hj'. apply Hl. now right.
    + split; congruence.
Qed.

(** What the two tests of the success check read in a slot, after the
    galaxies below [k] have been processed, when the true redshifts are
    positive. *)
Lemma processed_slot k st i :
  (forall g idx, idx <> [] -> In (fst (random_choice g idx)) idx) ->
  (forall z, In z (data_tz cat) -> gtb z zero = true) ->
  processed k st -> i < length cat ->
  isnan (nth i (data_pz st) zero) =
    (i <? k) && negb (has_neighbors (index i)) /\
  gtb (nth i (data_pz st) zero) zero =
    (i <? k) && has_neighbors (index i).
Proof.
  intros Hchoice Htz (_ & _ & P) Hi.
  destruct (P i Hi) as [Pa Pb].
  destruct (Nat.ltb_spec i k) as [Hlt | Hge].
  - destruct (Pa Hlt) as [(E & H1 & _) | (Hne & [g H1] & _)].
    + rewrite H1, E. split; reflexivity.
    + rewrite H1.
      assert (Hin : In (fst (random_choice g (index i))) (index i))
        by (apply Hchoice, Hne).
      assert (Hr : fst (random_choice g (index i)) < length (data_tz cat)).
      { unfold data_tz. rewrite length_map.
        apply In_index_iff in Hin. tauto. }
      pose proof (Htz _ (nth_In _ nan Hr)) as Hz.
      rewrite Hz, (gtb_zero_not_nan _ Hz).
      unfold has_neighbors.
      destruct (index i); [contradiction | split; reflexivity].
  - destruct (Pb Hge) as [H1 _]. rewrite H1. split; reflexivity.
Qed.

End More_driver_facts.

(** ** Counting with [np.where] *)

Section Counting_facts.

Lemma where_from_count (A : Type) (f : A -> bool) (P : nat -> bool) d l :
  forall k,
  (forall i, i < length l -> f (nth i l d) = P (k + i)) ->
  length (where_from k (map f l)) = length (filter P (seq k (length l))).
Proof.
  induction l as [ | x l IH]; intros k H; cbn [map where_from length seq filter];
    trivial.
  assert (Hx : f x = P k).
  { specialize (H 0). cbn [nth length] in H. rewrite Nat.add_0_r in H.
    apply H. lia. }
  assert (Hl : length (where_from (S k) (map f l)) =
               length (filter P (seq (S k) (length l)))).
  { apply IH. intros i Hi. specialize (H (S i)). cbn [nth length] in H.
    rewrite Nat.add_succ_r in H. apply H. lia. }
  rewrite Hx. destruct (P k); cbn [length]; now rewrite Hl.
Qed.

Lemma filter_below (Q : nat -> bool) k n :
  k <= n ->
  length (filter (fun i => (i <? k) && Q i) (seq 0 n)) =
  length (filter Q (seq 0 k)).
Proof.
  intros H. replace n with (k + (n - k)) by lia.
  rewrite seq_app, filter_app, length_app.
  rewrite (filter_ext_in (fun i => (i <? k) && Q i) Q (seq 0 k)).
  2:{ intros i Hi. apply in_seq in Hi.
      destruct (Nat.ltb_spec i k); [reflexivity | lia]. }
  rewrite (filter_ext_in (fun i => (i <? k) && Q i) (fun _ => false)
             (seq (0 + k) (n - k))).
  2:{ intros i Hi. apply in_seq in Hi.
      destruct (Nat.ltb_spec i k); [lia | reflexivity]. }
  assert (E : forall l : list nat, filter (fun _ => false) l = [])
    by (induction l; trivial).
  rewrite E. simpl. lia.
Qed.

End Counting_facts.

(** ** X1, X2: colours and colour errors *)

(** X1.  A colour is missing (NaN) exactly when one of its two magnitudes
    is missing or both are infinities of the same sign; two finite
    magnitudes always give a colour. *)
Theorem color_missing_iff (m : mags) (k : nat) :
  k < 5 ->
  (isnan (nth k (columns (color_of m)) zero) = true <->
   isnan (nth k (bands m) zero) = true \/
   isnan (nth (S k) (bands m) zero) = true \/
   exists s, nth k (bands m) zero = S754_infinity s /\
             nth (S k) (bands m) zero = S754_infinity s).
Proof.
  intros Hk.
  assert (Hk' : k = 0 \/ k = 1 \/ k = 2 \/ k = 3 \/ k = 4) by lia.
  destruct m as [u g r i z y].
  destruct Hk' as [-> | [-> | [-> | [-> | ->]]]];
    cbn [columns color_of bands nth u_g g_r r_i i_z z_y
         m_u m_g m_r m_i m_z m_y];
    apply sub_isnan_iff.
Qed.

Lemma color_missing_iff_witness :
  isnan (nth 1 (columns (color_of (Mags one one nan one one one))) zero)
    = true <->
  isnan (nth 1 (bands (Mags one one nan one one one)) zero) = true \/
  isnan (nth 2 (bands (Mags one one nan one one one)) zero) = true \/
  exists s, nth 1 (bands (Mags one one nan one one one)) zero
              = S754_infinity s /\
            nth 2 (bands (Mags one one nan one one one)) zero
              = S754_infinity s.
Proof. apply color_missing_iff. lia. Defined.

(** X2.  A colour error is missing exactly when one of its two magnitude
    errors is missing; otherwise it is non-negative (zero, positive or
    plus infinity), whatever the signs of the magnitude errors. *)
Theorem color_error_range (me : mags) (k : nat) :
  k < 5 ->
  isnan (nth k (columns (color_error_of me)) zero) =
    isnan (nth k (bands me) zero) || isnan (nth (S k) (bands me) zero) /\
  (isnan (nth k (columns (color_error_of me)) zero) = false ->
   nonneg (nth k (columns (color_error_of me)) zero) /\
   geb (nth k (columns (color_error_of me)) zero) zero = true).
Proof.
  intros Hk.
  assert (Hk' : k = 0 \/ k = 1 \/ k = 2 \/ k = 3 \/ k = 4) by lia.
  assert (H : forall a b,
             isnan (quadrature a b) = isnan a || isnan b /\
             (isnan (quadrature a b) = false ->
              nonneg (quadrature a b) /\ geb (quadrature a b) zero = true)).
  { intros a b. split; [apply quadrature_isnan | ].
    rewrite quadrature_isnan. intros E. apply orb_false_iff in E.
    destruct E as [Ea Eb].
    pose proof (quadrature_nonneg a b Ea Eb) as Hn.
    split; [exact Hn | apply nonneg_geb_zero, Hn]. }
  destruct me as [u g r i z y].
  destruct Hk' as [-> | [-> | [-> | [-> | ->]]]];
    cbn [columns color_error_of bands nth u_g g_r r_i i_z z_y
         m_u m_g m_r m_i m_z m_y];
    apply H.
Qed.

Lemma color_error_range_witness :
  isnan (nth 0 (columns (color_error_of
                           (Mags (of_Z (-3)) (of_Z 4) nan one one one)))
             zero) =
    isnan (nth 0 (bands (Mags (of_Z (-3)) (of_Z 4) nan one one one)) zero)
    || isnan (nth 1 (bands (Mags (of_Z (-3)) (of_Z 4) nan one one one))
                  zero) /\
  (isnan (nth 0 (columns (color_error_of
                            (Mags (of_Z (-3)) (of_Z 4) nan one one one)))
              zero) = false ->
   nonneg (nth 0 (columns (color_error_of
                             (Mags (of_Z (-3)) (of_Z 4) nan one one one)))
               zero) /\
   geb (nth 0 (columns (color_error_of
                          (Mags (of_Z (-3)) (of_Z 4) nan one one one)))
            zero) zero = true).
Proof. apply color_error_range. lia. Defined.

(** ** X3, X4: degrees of freedom and thresholds *)

(** X3.  The degrees of freedom of a pair lie between 0 and 5. *)
Theorem dof_range (cat : catalog) (q r : nat) :
  (0 <= d_pair cat q r <= 5)%Z.
Proof. apply d_pair_range. Qed.

(** X4.  The six passes of the threshold loop cover every value of [DOF]:
    each training galaxy receives the table entry of its degrees of
    freedom. *)
Theorem data_th_lookup
    (chi2_ppf : float -> Z -> float) (cmnn_ppf : float)
    (cat : catalog) (q r : nat) :
  r < length cat ->
  nth r (data_th chi2_ppf cmnn_ppf (DOF cat q)) zero =
  nth (Z.to_nat (d_pair cat q r)) (cmnn_thresh_table chi2_ppf cmnn_ppf) zero.
Proof.
  intros Hr. rewrite nth_data_th by (now rewrite length_DOF).
  fold (d_pair cat q r). unfold threshold.
  pose proof (d_pair_range cat q r) as [H0 H5].
  apply Z.leb_le in H0, H5. now rewrite H0, H5.
Qed.

Lemma data_th_lookup_witness :
  nth 2 (data_th ppf68 p68 (DOF cat4 0)) zero =
  nth (Z.to_nat (d_pair cat4 0 2)) (cmnn_thresh_table ppf68 p68) zero.
Proof. apply data_th_lookup. simpl. lia. Defined.

(** ** X5 to X9: who can be selected *)

(** X5.  With [cmnn_minNclr] at 5 (the default) or more, a galaxy with a
    missing magnitude in any band has an empty subset and is in the
    subset of no galaxy. *)
Theorem missing_magnitude_unmatched
    (chi2_ppf : float -> Z -> float) (cmnn_ppf : float) (cmnn_minNclr : Z)
    (results : list object_row) (q j : nat) (o : object_row) :
  nth_error results q = Some o ->
  j < 6 -> isnan (nth j (bands (mag o)) zero) = true ->
  (5 <= cmnn_minNclr)%Z ->
  index chi2_ppf cmnn_ppf cmnn_minNclr (catalog_of results) q = [] /\
  forall r,
    ~ In q (index chi2_ppf cmnn_ppf cmnn_minNclr (catalog_of results) r).
Proof.
  intros Ho Hj Hnan Hmin.
  assert (Hq : q < length results)
    by (apply nth_error_Some; congruence).
  assert (Hrow : row (data_c (catalog_of results)) q
                 = columns (color_of (mag o))).
  { unfold row, data_c, catalog_of. rewrite map_map.
    rewrite nth_map_lt with (d := o) by exact Hq.
    now rewrite (nth_error_nth _ _ o Ho). }
  assert (Hk : exists k, k < 5 /\
             isnan (nth k (row (data_c (catalog_of results)) q) zero) = true).
  { rewrite Hrow. destruct (mag o) as [u g r i z y].
    assert (Hj' : j = 0 \/ j = 1 \/ j = 2 \/ j = 3 \/ j = 4 \/ j = 5) by lia.
    destruct Hj' as [-> | [-> | [-> | [-> | [-> | ->]]]]];
      cbn [bands nth m_u m_g m_r m_i m_z m_y] in Hnan;
      apply isnan_true in Hnan; subst.
    - exists 0. split; [lia | reflexivity].
    - exists 1. split; [lia | reflexivity].
    - exists 2. split; [lia | reflexivity].
    - exists 3. split; [lia | reflexivity].
    - exists 4. split; [lia | reflexivity].
    - exists 4. split; [lia | ].
      cbn [columns color_of nth z_y m_z m_y]. now rewrite sub_nan_r. }
  destruct Hk as [k [Hk5 Hk]].
  split.
  - apply no_member_nil. intros r. apply low_dof_not_selected.
    pose proof (d_pair_missing (catalog_of results) q r Hk5 Hk). lia.
  - intros r. apply low_dof_not_selected. rewrite d_pair_sym.
    pose proof (d_pair_missing (catalog_of results) q r Hk5 Hk). lia.
Qed.

Lemma missing_magnitude_unmatched_witness :
  index ppf68 p68 5 (catalog_of results4) 2 = [] /\
  forall r, ~ In 2 (index ppf68 p68 5 (catalog_of results4) r).
Proof.
  apply (@missing_magnitude_unmatched ppf68 p68 5 results4 2 2
           (nth 2 results4 (sample_object 0 0))).
  - reflexivity.
  - lia.
  - reflexivity.
  - lia.
Defined.

(** X6.  A training galaxy whose five colours are the same floats as those
    of the test galaxy is at distance exactly [+0.0] (so is the test
    galaxy from itself, before the sentinel is written) and is never
    selected. *)
Theorem duplicate_colors_unmatched
    (chi2_ppf : float -> Z -> float) (cmnn_ppf : float) (cmnn_minNclr : Z)
    (cat : catalog) (q r : nat) :
  row (data_c cat) r = row (data_c cat) q ->
  D_pair cat q r = zero /\
  (r <> q -> ~ In r (index chi2_ppf cmnn_ppf cmnn_minNclr cat q)).
Proof.
  intros H.
  assert (E : D_pair cat q r = zero)
    by (rewrite D_pair_eq, H; apply DM_row_same).
  split; [exact E | ].
  intros Hne Hin. apply In_index_iff in Hin.
  destruct Hin as (_ & _ & _ & Hgt & _).
  unfold D_loo in Hgt. apply Nat.eqb_neq in Hne.
  rewrite Hne, E in Hgt. vm_compute in Hgt. discriminate.
Qed.

Lemma duplicate_colors_unmatched_witness :
  D_pair (catalog_of results4) 0 1 = zero /\
  (1 <> 0 -> ~ In 1 (index ppf68 p68 5 (catalog_of results4) 0)).
Proof. apply duplicate_colors_unmatched. vm_compute. reflexivity. Defined.

(** X7.  The subset lists positions of the catalogue in strictly
    increasing order (hence without repetition). *)
Theorem index_sorted_in_range
    (chi2_ppf : float -> Z -> float) (cmnn_ppf : float) (cmnn_minNclr : Z)
    (cat : catalog) (q : nat) :
  StronglySorted lt (index chi2_ppf cmnn_ppf cmnn_minNclr cat q) /\
  Forall (fun r => r < length cat)
         (index chi2_ppf cmnn_ppf cmnn_minNclr cat q).
Proof.
  split.
  - unfold index, select, np_where. apply where_from_sorted.
  - apply Forall_forall. intros r Hr. apply In_index_iff in Hr. tauto.
Qed.

(** X8.  A training galaxy that shares no colour with the test galaxy is
    never selected, even when [cmnn_minNclr] is zero or negative. *)
Theorem zero_dof_unmatched
    (chi2_ppf : float -> Z -> float) (cmnn_ppf : float) (cmnn_minNclr : Z)
    (cat : catalog) (q r : nat) :
  (d_pair cat q r <= 0)%Z ->
  ~ In r (index chi2_ppf cmnn_ppf cmnn_minNclr cat q).
Proof.
  intros H Hin. apply In_index_iff in Hin.
  destruct Hin as (_ & _ & Hgt & _).
  pose proof (d_pair_range cat q r) as Hd.
  replace (d_pair cat q r) with 0%Z in Hgt by lia.
  vm_compute in Hgt. discriminate.
Qed.

Lemma zero_dof_unmatched_witness :
  ~ In 3 (index ppf68 p68 0 (catalog_of results4) 0).
Proof. apply zero_dof_unmatched. vm_compute. discriminate. Defined.

(** X9.  Raising [cmnn_minNclr] can only remove members from a subset. *)
Theorem index_antitone_in_minNclr
    (chi2_ppf : float -> Z -> float) (cmnn_ppf : float)
    (lo hi : Z) (cat : catalog) (q : nat) :
  (lo <= hi)%Z ->
  incl (index chi2_ppf cmnn_ppf hi cat q) (index chi2_ppf cmnn_ppf lo cat q).
Proof.
  intros H r Hr. apply In_index_iff in Hr. apply In_index_iff.
  destruct Hr as (H1 & H2 & H3). repeat split; try tauto. lia.
Qed.

Lemma index_antitone_in_minNclr_witness :
  incl (index ppf68 p68 5 cat_missing 0) (index ppf68 p68 3 cat_missing 0).
Proof. apply index_antitone_in_minNclr. lia. Defined.



(** ** X11 to X15: the driver *)



(** X12.  The progress report raises [ZeroDivisionError] for the first
    galaxy of a run capped at exactly 1000 and in no other case; such a
    run stops before anything is written, whatever the catalogue and the
    parameters. *)
Theorem cap_1000_raises_at_once
    (chi2_ppf : float -> Z -> float) (np_std : list float -> float)
    (rng : Type) (random_choice : rng -> list nat -> nat * rng)
    (cmnn_ppf : float) (cmnn_minNclr : Z) (cat : catalog) (g : rng) :
  (forall Ncalc i e,
      progress_report Ncalc i = Some e <->
      i = 0 /\ Ncalc = 1000 /\ e = ZeroDivisionError) /\
  run chi2_ppf np_std random_choice cmnn_ppf cmnn_minNclr cat 1000 g
    = Raised ZeroDivisionError (initial cat g).
Proof.
  split; [apply progress_report_some | ].
  destruct (run_outcome chi2_ppf np_std random_choice cmnn_ppf cmnn_minNclr
              cat 1000 g)
    as [[_ E] | [(H & _) | (H & _)]]; [exact E | | ]; contradiction.
Qed.

(** X13.  A run with a smaller cap gives, for the galaxies below that cap,
    the same two outputs as a run with a larger cap started from the same
    generator state. *)
Theorem capped_run_is_prefix
    (chi2_ppf : float -> Z -> float) (np_std : list float -> float)
    (rng : Type) (random_choice : rng -> list nat -> nat * rng)
    (cmnn_ppf : float) (cmnn_minNclr : Z)
    (cat : catalog) (Ncalc Ncalc' : nat) (g : rng) :
  Ncalc <= Ncalc' -> Ncalc' <= length cat ->
  Ncalc <> 1000 -> Ncalc' <> 1000 ->
  exists st st',
    run chi2_ppf np_std random_choice cmnn_ppf cmnn_minNclr cat Ncalc g
      = Done st /\
    run chi2_ppf np_std random_choice cmnn_ppf cmnn_minNclr cat Ncalc' g
      = Done st' /\
    forall i, i < Ncalc ->
      nth i (data_pz st') zero = nth i (data_pz st) zero /\
      nth i (data_pze st') zero = nth i (data_pze st) zero.
Proof.
  intros Hle Hle' Hc Hc'.
  destruct (run_outcome chi2_ppf np_std random_choice cmnn_ppf cmnn_minNclr
              cat Ncalc g)
    as [[E _] | [(_ & _ & st & E & P) | (_ & Hgt & _)]]; try lia.
  destruct (@loop_processed chi2_ppf np_std rng random_choice cmnn_ppf
              cmnn_minNclr cat Ncalc' (Ncalc' - Ncalc) Ncalc st Hc')
    as [st' [E' P']]; [lia | exact P | ].
  exists st, st'. split; [exact E | ].
  assert (Erun : run chi2_ppf np_std random_choice cmnn_ppf cmnn_minNclr
                     cat Ncalc' g = Done st').
  { unfold run.
    assert (Hs : seq 0 Ncalc' = seq 0 Ncalc ++ seq Ncalc (Ncalc' - Ncalc))
      by (rewrite <- seq_app; f_equal; lia).
    rewrite Hs, loop_app.
    rewrite (@loop_cap_irrelevant chi2_ppf np_std rng random_choice cmnn_ppf
               cmnn_minNclr cat Ncalc' Ncalc (seq 0 Ncalc)
               (initial cat g) Hc' Hc).
    unfold run in E. rewrite E. exact E'. }
  split; [exact Erun | ].
  intros i Hi.
  apply (@loop_preserves_below chi2_ppf np_std rng random_choice cmnn_ppf
           cmnn_minNclr cat Ncalc' Ncalc (seq Ncalc (Ncalc' - Ncalc))
           st st'); trivial.
  intros j Hj. apply in_seq in Hj. lia.
Qed.

Lemma capped_run_is_prefix_witness :
  exists st st',
    run ppf68 std_sequential first_choice p68 5 cat4 2 tt = Done st /\
    run ppf68 std_sequential first_choice p68 5 cat4 4 tt = Done st' /\
    forall i, i < 2 ->
      nth i (data_pz st') zero = nth i (data_pz st) zero /\
      nth i (data_pze st') zero = nth i (data_pze st) zero.
Proof.
  apply (@capped_run_is_prefix ppf68 std_sequential unit first_choice
           p68 5 cat4 2 4 tt).
  - lia.
  - simpl. lia.
  - discriminate.
  - discriminate.
Defined.

(** X14.  When every true redshift is positive and the run ends normally,
    the first number printed by the success check is the number of
    galaxies below the cap with an empty subset, and the second the number
    of galaxies below the cap with a non-empty subset: the two add up to
    the cap, not to the size of the catalogue. *)
Theorem success_counts
    (chi2_ppf : float -> Z -> float) (np_std : list float -> float)
    (rng : Type) (random_choice : rng -> list nat -> nat * rng)
    (Hchoice : forall g idx, idx <> [] -> In (fst (random_choice g idx)) idx)
    (cmnn_ppf : float) (cmnn_minNclr : Z)
    (cat : catalog) (Ncalc : nat) (g : rng) :
  (forall z, In z (data_tz cat) -> gtb z zero = true) ->
  Ncalc <= length cat -> Ncalc <> 1000 ->
  exists st,
    run chi2_ppf np_std random_choice cmnn_ppf cmnn_minNclr cat Ncalc g
      = Done st /\
    count_no_estimate (data_pz st) =
      length (filter
                (fun i => negb (has_neighbors
                          (index chi2_ppf cmnn_ppf cmnn_minNclr cat i)))
                (seq 0 Ncalc)) /\
    count_estimate (data_pz st) =
      length (filter
                (fun i => has_neighbors
                          (index chi2_ppf cmnn_ppf cmnn_minNclr cat i))
                (seq 0 Ncalc)) /\
    count_no_estimate (data_pz st) + count_estimate (data_pz st) = Ncalc.
Proof.
  intros Htz Hle Hc.
  destruct (run_outcome chi2_ppf np_std random_choice cmnn_ppf cmnn_minNclr
              cat Ncalc g)
    as [[E _] | [(_ & _ & st & E & P) | (_ & Hgt & _)]]; try lia.
  exists st. split; [exact E | ].
  assert (Hlen : length (data_pz st) = length cat) by (destruct P; tauto).
  set (Q := fun i => has_neighbors
                       (index chi2_ppf cmnn_ppf cmnn_minNclr cat i)).
  assert (H1 : count_no_estimate (data_pz st) =
               length (filter (fun i => negb (Q i)) (seq 0 Ncalc))).
  { unfold count_no_estimate, np_where.
    rewrite where_from_count
      with (d := zero) (P := fun i => (i <? Ncalc) && negb (Q i)).
    - rewrite Hlen. now apply filter_below.
    - intros i Hi. rewrite Hlen in Hi.
      apply (processed_slot Hchoice Htz P Hi). }
  assert (H2 : count_estimate (data_pz st) =
               length (filter Q (seq 0 Ncalc))).
  { unfold count_estimate, np_where.
    rewrite where_from_count
      with (d := zero) (P := fun i => (i <? Ncalc) && Q i).
    - rewrite Hlen. now apply filter_below.
    - intros i Hi. rewrite Hlen in Hi.
      apply (processed_slot Hchoice Htz P Hi). }
  split; [exact H1 | ]. split; [exact H2 | ].
  rewrite H1, H2.
  assert (Hsplit : forall l : list nat,
             length (filter (fun i => negb (Q i)) l) + length (filter Q l)
             = length l).
  { induction l as [ | i l IH]; simpl; trivial.
    destruct (Q i); simpl; lia. }
  rewrite Hsplit. apply length_seq.
Qed.

Lemma cat4_redshifts_positive :
  forall z, In z (data_tz cat4) -> gtb z zero = true.
Proof.
  intros z Hz. vm_compute in Hz.
  repeat (destruct Hz as [<- | Hz]; [reflexivity | ]). contradiction.
Defined.

Lemma success_counts_witness :
  exists st,
    run ppf68 std_sequential first_choice p68 5 cat4 3 tt = Done st /\
    count_no_estimate (data_pz st) =
      length (filter (fun i => negb (has_neighbors (index ppf68 p68 5 cat4 i)))
                     (seq 0 3)) /\
    count_estimate (data_pz st) =
      length (filter (fun i => has_neighbors (index ppf68 p68 5 cat4 i))
                     (seq 0 3)) /\
    count_no_estimate (data_pz st) + count_estimate (data_pz st) = 3.
Proof.
  apply (@success_counts ppf68 std_sequential unit first_choice
           first_choice_In p68 5 cat4 3 tt).
  - exact cat4_redshifts_positive.
  - simpl. lia.
  - discriminate.
Defined.

(** The threshold belonging to a galaxy's own entry never reaches the
    sentinel when [chi2.ppf] stays below it. *)
Lemma own_entry_not_selected
    (chi2_ppf : float -> Z -> float) (cmnn_ppf : float) (cmnn_minNclr : Z)
    (cat : catalog) (g : nat) :
  (forall d, (1 <= d <= 5)%Z -> ltb (chi2_ppf cmnn_ppf d) sentinel = true) ->
  ~ In g (index chi2_ppf cmnn_ppf cmnn_minNclr cat g).
Proof.
  intros Hbelow Hin. apply In_index_iff in Hin.
  destruct Hin as (_ & _ & _ & _ & H).
  unfold D_loo in H. rewrite Nat.eqb_refl in H.
  destruct (threshold_cases chi2_ppf cmnn_ppf (d_pair cat g g))
    as [E | [k [Hk E]]]; rewrite E in H.
  - vm_compute in H. discriminate.
  - rewrite (ltb_leb_false _ _ (Hbelow k Hk)) in H. discriminate.
Qed.

(** X15.  Leave-one-out on the outputs: when [chi2.ppf] stays below 99.9
    for the configured probability, the photo-z written for a galaxy is
    NaN or the true redshift of another galaxy of the catalogue, never
    its own entry. *)
Theorem estimate_from_another_galaxy
    (chi2_ppf : float -> Z -> float) (np_std : list float -> float)
    (rng : Type) (random_choice : rng -> list nat -> nat * rng)
    (Hchoice : forall g idx, idx <> [] -> In (fst (random_choice g idx)) idx)
    (cmnn_ppf : float) (cmnn_minNclr : Z)
    (cat : catalog) (Ncalc : nat) (g : rng) :
  (forall d, (1 <= d <= 5)%Z -> ltb (chi2_ppf cmnn_ppf d) sentinel = true) ->
  Ncalc <= length cat -> Ncalc <> 1000 ->
  exists st,
    run chi2_ppf np_std random_choice cmnn_ppf cmnn_minNclr cat Ncalc g
      = Done st /\
    forall i, i < Ncalc ->
      nth i (data_pz st) zero = nan \/
      exists r, r <> i /\ r < length cat /\
                nth i (data_pz st) zero = nth r (data_tz cat) nan.
Proof.
  intros Hbelow Hle Hc.
  destruct (run_outcome chi2_ppf np_std random_choice cmnn_ppf cmnn_minNclr
              cat Ncalc g)
    as [[E _] | [(_ & _ & st & E & P) | (_ & Hgt & _)]]; try lia.
  exists st. split; [exact E | ].
  intros i Hi. destruct P as (_ & _ & P).
  destruct (P i) as [Pa _]; [lia | ].
  destruct (Pa Hi) as [(_ & H1 & _) | (Hne & [g' H1] & _)]; [now left | ].
  right.
  set (r := fst (random_choice g' (index chi2_ppf cmnn_ppf cmnn_minNclr
                                         cat i))) in *.
  assert (Hin : In r (index chi2_ppf cmnn_ppf cmnn_minNclr cat i))
    by (apply Hchoice, Hne).
  exists r. repeat split; trivial.
  - intros ->. revert Hin. now apply own_entry_not_selected.
  - apply In_index_iff in Hin. tauto.
Qed.

Lemma estimate_from_another_galaxy_witness :
  exists st,
    run ppf68 std_sequential first_choice p68 5 cat4 4 tt = Done st /\
    forall i, i < 4 ->
      nth i (data_pz st) zero = nan \/
      exists r, r <> i /\ r < length cat4 /\
                nth i (data_pz st) zero = nth r (data_tz cat4) nan.
Proof.
  apply (@estimate_from_another_galaxy ppf68 std_sequential unit
           first_choice first_choice_In p68 5 cat4 4 tt).
  - apply (cases_1_5 (fun d => ltb (ppf68 p68 d) sentinel = true));
      reflexivity.
  - simpl. lia.
  - discriminate.
Defined.

(** X16.  A test galaxy with a colour error of zero cannot select a
    training galaxy whose colour differs in that dimension, as long as no
    threshold of the table is plus infinity: the distance is plus
    infinity. *)
Theorem zero_error_unmatched
    (chi2_ppf : float -> Z -> float) (cmnn_ppf : float) (cmnn_minNclr : Z)
    (cat : catalog) (q r : nat) (a b e : float) :
  (forall d, (1 <= d <= 5)%Z -> leb pinf (chi2_ppf cmnn_ppf d) = false) ->
  In (a, b, e) (dims (row (data_c cat) q) (row (data_c cat) r)
                     (row (data_ce cat) q)) ->
  is_zero e = true ->
  isnan (square (sub a b)) = false ->
  is_zero (square (sub a b)) = false ->
  r <> q ->
  ~ In r (index chi2_ppf cmnn_ppf cmnn_minNclr cat q).
Proof.
  intros Hfin Hin He Hn Hz Hne Hr.
  assert (E : D_pair cat q r = pinf).
  { rewrite D_pair_eq. apply (DM_row_pinf _ _ _ (a, b, e)); trivial.
    apply D_term_zero_error; assumption. }
  apply In_index_iff in Hr. destruct Hr as (_ & _ & _ & _ & H).
  unfold D_loo in H. apply Nat.eqb_neq in Hne. rewrite Hne, E in H.
  destruct (threshold_cases chi2_ppf cmnn_ppf (d_pair cat q r))
    as [Et | [k [Hk Et]]]; rewrite Et in H.
  - vm_compute in H. discriminate.
  - rewrite (Hfin k Hk) in H. discriminate.
Qed.

Lemma zero_error_unmatched_witness :
  ~ In 1 (index ppf68 p68 5 cat_zero_error 0).
Proof.
  apply (@zero_error_unmatched ppf68 p68 5 cat_zero_error 0 1
           (decimal 5 10) (decimal 6000 10000) zero).
  - apply (cases_1_5 (fun d => leb pinf (ppf68 p68 d) = false));
      reflexivity.
  - left. reflexivity.
  - reflexivity.
  - reflexivity.
  - reflexivity.
  - discriminate.
Defined.
